(** * Real-time chat backend: socket handlers and chat controller

    A shallow embedding of the Socket.IO server ([initSocketServer]: the
    connection, sendMessage, markAsRead, addReaction, editMessage,
    deleteMessage and disconnect handlers) and of the REST chat controller
    ([getMessages], [addMessage], [editMessage], [deleteMessage],
    [findOrCreateConversation]).

    The two MongoDB collections are finite maps keyed by [_id]; the
    process-wide [onlineUsers] map is a finite map from user id to socket
    id.  Every [await]ed store call may reject: a handler runs against an
    oracle that says which call sites reject, and what was persisted before
    the rejection stays persisted, as it does in the source (there is no
    transaction).  Emitted events are appended to an outbox.

    The Mongoose schemas are not among the sources: a document is stored
    with the fields the handler gives it, [new Date()] is an argument of
    the handler, and a new [_id] is one the collection does not hold. *)

From stdpp Require Import gmap strings list fin_maps sorting.

Open Scope string_scope.
Open Scope list_scope.
Open Scope nat_scope.

(** ** Data model *)

(** [{ public_id, url, secure_url }], as the sendMessage handler copies it. *)
Record Image := mkImage {
  public_id : string;
  url : string;
  secure_url : string;
}.

(** One entry of [message.reactions]. *)
Record Reaction := mkReaction {
  user : string;
  emoji : string;
  reactedAt : nat;
}.

(** A document of the Message collection.  [content] is [None] when the
    field was never set; [file] is only ever written by the socket
    deleteMessage handler. *)
Record Message := mkMessage {
  _id : nat;
  sender : string;
  recipient : string;
  conversationId : string;
  content : option string;
  image : option Image;
  file : option string;
  reactions : list Reaction;
  read : bool;
  edited : bool;
  editedAt : option nat;
  deleted : bool;
  createdAt : nat;
}.

(** A document of the Conversation collection; [unreadCount] is a Mongoose
    Map from user id to a number. *)
Record Conversation := mkConversation {
  conv_id : string;
  participants : list string;
  lastMessage : option nat;
  unreadCount : gmap string nat;
}.

#[global] Instance Image_eq_dec : EqDecision Image.
Proof. solve_decision. Defined.
#[global] Instance Reaction_eq_dec : EqDecision Reaction.
Proof. solve_decision. Defined.
#[global] Instance Message_eq_dec : EqDecision Message.
Proof. solve_decision. Defined.

(** Where an event is sent: [io.emit], [io.to(room).emit],
    [socket.emit] and [socket.to(room).emit]. *)
Inductive Target :=
  | IoEmit
  | IoTo (room : string)
  | SocketEmit (socketId : string)
  | SocketTo (socketId room : string).

Inductive Event :=
  | userStatus (userId : string) (online : bool)
  | newMessage (m : Message)
  | messageNotification (m : Message) (conversation : string)
  | messageError (text : string)
  | messagesRead (reader : string) (messageIds : list nat)
  | userTyping (userId : string) (isTyping : bool)
  | reactionUpdate (messageId : nat) (rs : list Reaction)
  | reactionError (text : string)
  | messageEdited (m : Message)
  | editError (text : string)
  | messageDeleted (messageId : nat) (deletedBy : string)
  | deleteError (text : string).

(** The state the handlers share: the Message and Conversation collections,
    the ids of the User collection, the [onlineUsers] map of the socket
    module, the live connections Socket.IO holds (socket id to the user the
    handshake bound it to), and the events emitted so far, oldest first. *)
Record World := mkWorld {
  messages : gmap nat Message;
  conversations : gmap string Conversation;
  users : gset string;
  onlineUsers : gmap string string;
  sockets : gmap string string;
  outbox : list (Target * Event);
}.

Definition empty_world : World := mkWorld ∅ ∅ ∅ ∅ ∅ [].

Definition with_messages (f : gmap nat Message → gmap nat Message) (w : World) : World :=
  mkWorld (f (messages w)) (conversations w) (users w) (onlineUsers w) (sockets w) (outbox w).

Definition with_conversations
    (f : gmap string Conversation → gmap string Conversation) (w : World) : World :=
  mkWorld (messages w) (f (conversations w)) (users w) (onlineUsers w) (sockets w) (outbox w).

Definition with_onlineUsers (f : gmap string string → gmap string string) (w : World) : World :=
  mkWorld (messages w) (conversations w) (users w) (f (onlineUsers w)) (sockets w) (outbox w).

Definition with_sockets (f : gmap string string → gmap string string) (w : World) : World :=
  mkWorld (messages w) (conversations w) (users w) (onlineUsers w) (f (sockets w)) (outbox w).

Definition emit_to (t : Target) (e : Event) (w : World) : World :=
  mkWorld (messages w) (conversations w) (users w) (onlineUsers w) (sockets w) (outbox w ++ [(t, e)]).

(** ** Handlers as state-passing computations that may throw *)

(** The [await]ed call sites of the handlers. *)
Inductive StoreCall :=
  | MessageSave
  | MessageCreate
  | MessagePopulate
  | MessageFindById
  | MessageFind
  | MessageUpdateMany
  | ConversationFindById
  | ConversationFindOne
  | ConversationCreate
  | ConversationSave
  | ConversationPopulate
  | UserFindById.

#[global] Instance StoreCall_eq_dec : EqDecision StoreCall.
Proof. solve_decision. Defined.

Definition Faults := StoreCall → bool.

Definition no_faults : Faults := λ _, false.

Inductive outcome (A : Type) :=
  | Returned (a : A)
  | Thrown.
Arguments Returned {A} a.
Arguments Thrown {A}.

(** The body of a [try] block: the state reached is kept whether the body
    returns or throws. *)
Definition Handler (A : Type) : Type := World → World * outcome A.

Definition hret {A} (a : A) : Handler A := λ w, (w, Returned a).

Definition hbind {A B} (c : Handler A) (k : A → Handler B) : Handler B :=
  λ w, match c w with
       | (w', Returned a) => k a w'
       | (w', Thrown) => (w', Thrown)
       end.

Notation "'let*' x ':=' c 'in' k" := (hbind c (λ x, k))
  (at level 10, x name, c at level 100, k at level 200).

(** A store call: rejects when the oracle says so, and otherwise reads or
    updates the collections. *)
Definition await {A} (faults : Faults) (c : StoreCall) (op : World → World * A) : Handler A :=
  λ w, if faults c then (w, Thrown)
       else let '(w', a) := op w in (w', Returned a).

(** A store call the server itself can refuse ([None]): a negative [skip],
    a duplicate [_id]. *)
Definition await_checked {A} (faults : Faults) (c : StoreCall)
    (op : World → option (World * A)) : Handler A :=
  λ w, if faults c then (w, Thrown)
       else match op w with
            | Some (w', a) => (w', Returned a)
            | None => (w, Thrown)
            end.

Definition emit (t : Target) (e : Event) : Handler unit :=
  λ w, (emit_to t e w, Returned tt).

(** [try { body } catch (error) { handler }] of an event listener. *)
Definition try_catch (body : Handler unit) (handler : World → World) : World → World :=
  λ w, match body w with
       | (w', Returned _) => w'
       | (w', Thrown) => handler w'
       end.

(** ** JavaScript values *)

(** [if (content)]: a string is truthy when it is not empty. *)
Definition truthy (s : option string) : bool :=
  match s with
  | Some s => negb (bool_decide (s = ""))
  | None => false
  end.

(** The string of the given bytes. *)
Definition bytes (l : list nat) : string :=
  foldr (λ n s, String (Ascii.ascii_of_nat n) s) EmptyString l.

(** A string is held as the bytes of its UTF-8 encoding.  The characters
    that [String.prototype.trim] strips are the white space and the line
    terminators of ECMAScript: U+0009 to U+000D and U+0020 (one byte each,
    [Ascii.is_space]), U+00A0 (two bytes), and U+1680, U+2000 to U+200A,
    U+2028, U+2029, U+202F, U+205F, U+3000 and U+FEFF (three bytes each). *)
Definition byte_is (n : N) (a : Ascii.ascii) : bool :=
  bool_decide (Ascii.N_of_ascii a = n).

(** U+00A0 is [C2 A0]. *)
Definition white_space2 (a b : Ascii.ascii) : bool :=
  byte_is 194 a && byte_is 160 b.

(** U+1680 is [E1 9A 80]; U+2000 to U+200A are [E2 80 80] to [E2 80 8A];
    U+2028, U+2029 and U+202F are [E2 80 A8], [E2 80 A9] and [E2 80 AF];
    U+205F is [E2 81 9F]; U+3000 is [E3 80 80]; U+FEFF is [EF BB BF]. *)
Definition white_space3 (a b c : Ascii.ascii) : bool :=
  (byte_is 225 a && byte_is 154 b && byte_is 128 c)
  || (byte_is 226 a && byte_is 128 b
      && (bool_decide (128 ≤ Ascii.N_of_ascii c ≤ 138)%N
          || byte_is 168 c || byte_is 169 c || byte_is 175 c))
  || (byte_is 226 a && byte_is 129 b && byte_is 159 c)
  || (byte_is 227 a && byte_is 128 b && byte_is 128 c)
  || (byte_is 239 a && byte_is 187 b && byte_is 191 c).

Fixpoint trimStart (s : string) : string :=
  match s with
  | String a s1 =>
      if Ascii.is_space a then trimStart s1
      else match s1 with
           | String b s2 =>
               if white_space2 a b then trimStart s2
               else match s2 with
                    | String c s3 => if white_space3 a b c then trimStart s3 else s
                    | EmptyString => s
                    end
           | EmptyString => s
           end
  | EmptyString => EmptyString
  end.

(** The text is cut where what follows is white space to the end. *)
Fixpoint trimEnd (s : string) : string :=
  match s with
  | String a s' =>
      if bool_decide (trimStart s = EmptyString) then EmptyString
      else String a (trimEnd s')
  | EmptyString => EmptyString
  end.

(** [String.prototype.trim] *)
Definition trim (s : string) : string := trimEnd (trimStart s).

(** [!content || content.trim().length === 0] *)
Definition blank (s : option string) : bool :=
  match s with
  | Some s => negb (truthy (Some s)) || bool_decide (String.length (trim s) = 0)
  | None => true
  end.

(** [conversation.unreadCount.get(k) || 0] *)
Definition unread_or_zero (c : Conversation) (k : string) : nat :=
  default 0 (unreadCount c !! k).

(** ** Store operations *)

(** The [_id] that [new Message(...)] draws: an id no stored message has. *)
Definition new_id (w : World) : nat := fresh (dom (messages w)).

Definition save_message (m : Message) (w : World) : World * unit :=
  (with_messages (insert (_id m) m) w, tt).

Definition save_conversation (c : Conversation) (w : World) : World * unit :=
  (with_conversations (insert (conv_id c) c) w, tt).

Definition find_message (id : nat) (w : World) : World * option Message :=
  (w, messages w !! id).

Definition find_conversation (id : string) (w : World) : World * option Conversation :=
  (w, conversations w !! id).

Definition set_read (m : Message) : Message :=
  mkMessage (_id m) (sender m) (recipient m) (conversationId m) (content m) (image m)
    (file m) (reactions m) true (edited m) (editedAt m) (deleted m) (createdAt m).

(** [Message.updateMany(filter, { read: true })] *)
Definition update_many_read (sel : Message → bool) (w : World) : World * unit :=
  (with_messages (fmap (λ m, if sel m then set_read m else m)) w, tt).

(** [populate] only decorates the document in memory. *)
Definition populate (w : World) : World * unit := (w, tt).

(** [message.content = ...; message.edited = true; message.editedAt = new Date()] *)
Definition set_edited (m : Message) (newContent : option string) (now : nat) : Message :=
  mkMessage (_id m) (sender m) (recipient m) (conversationId m) newContent (image m)
    (file m) (reactions m) (read m) true (Some now) (deleted m) (createdAt m).

(** [conversation.lastMessage = last; conversation.unreadCount.set(k, n)] *)
Definition set_lastMessage_unread (c : Conversation) (last : nat) (k : string) (n : nat)
    : Conversation :=
  mkConversation (conv_id c) (participants c) (Some last) (<[k := n]> (unreadCount c)).

(** [conversation.unreadCount.set(k, n)] *)
Definition set_unread (c : Conversation) (k : string) (n : nat) : Conversation :=
  mkConversation (conv_id c) (participants c) (lastMessage c) (<[k := n]> (unreadCount c)).

(** The content a deleted message gets. *)
Definition tombstone : string := "This message has been deleted".

(** ** The socket handlers *)

Module Socket.

Record MessageData := mkMessageData {
  recipientId : string;
  msg_content : option string;
  msg_conversationId : string;
  msg_image : option Image;
}.

(** The document [new Message(messagePayload)] builds at time [now]. *)
Definition new_message (w : World) (userId : string) (now : nat) (d : MessageData) : Message :=
  mkMessage (new_id w) userId (recipientId d) (msg_conversationId d)
    (if truthy (msg_content d) then msg_content d else None)
    (msg_image d) None [] false false None false now.

Definition sendMessage_body (faults : Faults) (userId : string) (now : nat)
    (d : MessageData) : Handler unit :=
  λ w0,
  let m := new_message w0 userId now d in
  (let* _ := await faults MessageSave (save_message m) in
   let* _ := await faults MessagePopulate populate in
   let* found := await faults ConversationFindById
                   (find_conversation (msg_conversationId d)) in
   let conversation :=
     match found with
     | None =>
         mkConversation (msg_conversationId d) [userId; recipientId d] (Some (_id m))
           {[ recipientId d := 1 ]}
     | Some c =>
         set_lastMessage_unread c (_id m) (recipientId d)
           (unread_or_zero c (recipientId d) + 1)
     end in
   let* _ := await faults ConversationSave (save_conversation conversation) in
   let* _ := emit (IoTo (msg_conversationId d)) (newMessage m) in
   λ w,
   (if truthy (onlineUsers w !! recipientId d)
    then match onlineUsers w !! recipientId d with
         | Some recipientSocketId =>
             emit (IoTo recipientSocketId) (messageNotification m (msg_conversationId d))
         | None => hret tt
         end
    else hret tt) w) w0.

(** [socket.on("sendMessage", ...)] of the connection [socketId] bound to
    [userId]. *)
Definition sendMessage (faults : Faults) (userId socketId : string) (now : nat)
    (d : MessageData) : World → World :=
  try_catch (sendMessage_body faults userId now d)
    (emit_to (SocketEmit socketId) (messageError "Failed to send message")).

Definition markAsRead_body (faults : Faults) (userId conversation : string)
    (messageIds : list nat) : Handler unit :=
  let* _ := await faults MessageUpdateMany
              (update_many_read (λ m, bool_decide (_id m ∈ messageIds))) in
  let* found := await faults ConversationFindById (find_conversation conversation) in
  let* _ := match found with
            | Some c =>
                await faults ConversationSave (save_conversation (set_unread c userId 0))
            | None => hret tt
            end in
  emit (IoTo conversation) (messagesRead userId messageIds).

(** [socket.on("markAsRead", ...)]: a failure is only logged. *)
Definition markAsRead (faults : Faults) (userId conversation : string)
    (messageIds : list nat) : World → World :=
  try_catch (markAsRead_body faults userId conversation messageIds) id.

(** [io.on("connection", ...)]: the new socket is recorded under its user,
    replacing whatever socket id the user had, and the status is broadcast. *)
Definition connection (userId socketId : string) (w : World) : World :=
  emit_to IoEmit (userStatus userId true)
    (with_onlineUsers (insert userId socketId)
       (with_sockets (insert socketId userId) w)).

(** [socket.on("disconnect", ...)] *)
Definition disconnect (userId socketId : string) (w : World) : World :=
  emit_to IoEmit (userStatus userId false)
    (with_onlineUsers (delete userId)
       (with_sockets (delete socketId) w)).

(** [socket.on("typing", ...)] *)
Definition typing (userId socketId conversation : string) (isTyping : bool)
    (w : World) : World :=
  emit_to (SocketTo socketId conversation) (userTyping userId isTyping) w.

(** [r.user.toString() === userId && r.emoji === emoji] *)
Definition same_reaction (userId e : string) (r : Reaction) : Prop :=
  user r = userId ∧ emoji r = e.

#[global] Instance same_reaction_dec userId e r : Decision (same_reaction userId e r).
Proof. unfold same_reaction. apply _. Defined.

(** [message.reactions.find((r) => ...)] *)
Definition existing_reaction (userId e : string) (rs : list Reaction) : option Reaction :=
  List.find (λ r, bool_decide (same_reaction userId e r)) rs.

(** The reactions after one addReaction by [userId] with [e] at time [now]. *)
Definition toggle_reaction (userId e : string) (now : nat) (rs : list Reaction)
    : list Reaction :=
  match existing_reaction userId e rs with
  | Some existingReaction => filter (λ r, ¬ same_reaction userId e r) rs
  | None => rs ++ [mkReaction userId e now]
  end.

Definition set_reactions (m : Message) (rs : list Reaction) : Message :=
  mkMessage (_id m) (sender m) (recipient m) (conversationId m) (content m) (image m)
    (file m) rs (read m) (edited m) (editedAt m) (deleted m) (createdAt m).

Definition addReaction_body (faults : Faults) (userId socketId : string) (now : nat)
    (messageId : nat) (e : string) : Handler unit :=
  let* found := await faults MessageFindById (find_message messageId) in
  match found with
  | None => emit (SocketEmit socketId) (reactionError "Message not found")
  | Some message =>
      let message := set_reactions message (toggle_reaction userId e now (reactions message)) in
      let* _ := await faults MessageSave (save_message message) in
      let* _ := await faults MessagePopulate populate in
      emit (IoTo (conversationId message)) (reactionUpdate messageId (reactions message))
  end.

(** [socket.on("addReaction", ...)] *)
Definition addReaction (faults : Faults) (userId socketId : string) (now : nat)
    (messageId : nat) (e : string) : World → World :=
  try_catch (addReaction_body faults userId socketId now messageId e)
    (emit_to (SocketEmit socketId) (reactionError "Failed to add reaction")).

Definition editMessage_body (faults : Faults) (userId socketId : string) (now : nat)
    (messageId : nat) (newContent : option string) : Handler unit :=
  let* found := await faults MessageFindById (find_message messageId) in
  match found with
  | None => emit (SocketEmit socketId) (editError "Message not found")
  | Some message =>
      if bool_decide (sender message ≠ userId)
      then emit (SocketEmit socketId) (editError "You can only edit your own messages")
      else
        let message := set_edited message newContent now in
        let* _ := await faults MessageSave (save_message message) in
        let* _ := await faults MessagePopulate populate in
        emit (IoTo (conversationId message)) (messageEdited message)
  end.

(** [socket.on("editMessage", ...)] *)
Definition editMessage (faults : Faults) (userId socketId : string) (now : nat)
    (messageId : nat) (newContent : option string) : World → World :=
  try_catch (editMessage_body faults userId socketId now messageId newContent)
    (emit_to (SocketEmit socketId) (editError "Failed to edit message")).

(** The assignments of the socket deleteMessage handler: [deleted], [content],
    [image] and [file]. *)
Definition set_deleted (m : Message) : Message :=
  mkMessage (_id m) (sender m) (recipient m) (conversationId m) (Some tombstone) None
    None (reactions m) (read m) (edited m) (editedAt m) true (createdAt m).

Definition deleteMessage_body (faults : Faults) (userId socketId : string)
    (messageId : nat) : Handler unit :=
  let* found := await faults MessageFindById (find_message messageId) in
  match found with
  | None => emit (SocketEmit socketId) (deleteError "Message not found")
  | Some message =>
      if bool_decide (sender message ≠ userId)
      then emit (SocketEmit socketId) (deleteError "You can only delete your own messages")
      else
        let message := set_deleted message in
        let* _ := await faults MessageSave (save_message message) in
        emit (IoTo (conversationId message)) (messageDeleted messageId userId)
  end.

(** [socket.on("deleteMessage", ...)] *)
Definition deleteMessage (faults : Faults) (userId socketId : string)
    (messageId : nat) : World → World :=
  try_catch (deleteMessage_body faults userId socketId messageId)
    (emit_to (SocketEmit socketId) (deleteError "Failed to delete message")).

(** The [io.use] middleware: [verify] stands for [jwt.verify] with the
    server's secret and gives the [id] of the decoded token, or [None] when
    it throws.  The result is the error passed to [next] or the user the
    socket is bound to. *)
Definition authenticate (verify : string → option string) (token : option string)
    : string + string :=
  if negb (truthy token)
  then inl "Authentication error: Token not provided"
  else match token ≫= verify with
       | Some userId => inr userId
       | None => inl "Authentication error: Invalid token"
       end.

(** A handshake: the connection handler runs only when the middleware
    passed. *)
Definition handshake (verify : string → option string) (token : option string)
    (socketId : string) (w : World) : World :=
  match authenticate verify token with
  | inr userId => connection userId socketId w
  | inl _ => w
  end.

End Socket.

(** ** The chat controller *)

Module Controller.

(** The JSON bodies the controller sends. *)
Inductive Body :=
  | failure (text : string)
  | success_text (text : string)
  | success_messages (ms : list Message)
  | success_message (m : Message)
  | success_conversation (c : Conversation).

Record Response := mkResponse {
  status : nat;
  body : Body;
}.

(** [try { ... return res.status(..).json(..) } catch { return res.status(500)... }] *)
Definition respond (body : Handler Response) (on_error : Response)
    : World → World * Response :=
  λ w, match body w with
       | (w', Returned r) => (w', r)
       | (w', Thrown) => (w', on_error)
       end.

(** [Number.parseInt(q) || d]; [q] is [None] when parseInt gives NaN. *)
Definition parseInt_or (q : option Z) (d : Z) : Z :=
  match q with
  | Some z => if bool_decide (z = 0%Z) then d else z
  | None => d
  end.

(** [.sort({ createdAt: -1 })] *)
Definition newest_first (a b : Message) : Prop := createdAt b ≤ createdAt a.

#[global] Instance newest_first_dec a b : Decision (newest_first a b).
Proof. unfold newest_first. apply _. Defined.

Definition in_conversation (conversation : string) (m : Message) : Prop :=
  conversationId m = conversation.

#[global] Instance in_conversation_dec c m : Decision (in_conversation c m).
Proof. unfold in_conversation. apply _. Defined.

(** [Message.find({ conversationId }).sort(..).skip(skip).limit(limit)]:
    the server refuses a negative skip and reads a negative limit as its
    absolute value. *)
Definition find_page (conversation : string) (skip limit : Z) (w : World)
    : option (World * list Message) :=
  if bool_decide (skip < 0)%Z then None
  else Some (w, take (Z.abs_nat limit)
                  (drop (Z.to_nat skip)
                     (merge_sort newest_first
                        (filter (in_conversation conversation)
                           (map_to_list (messages w)).*2)))).

Definition getMessages_body (faults : Faults) (userId conversation : string)
    (page limit : option Z) : Handler Response :=
  let* found := await faults ConversationFindById (find_conversation conversation) in
  match found with
  | None => hret (mkResponse 404 (failure "Conversation not found"))
  | Some c =>
      if negb (bool_decide (userId ∈ participants c))
      then hret (mkResponse 403 (failure "You do not have access to this conversation"))
      else
        let page := parseInt_or page 1 in
        let limit := parseInt_or limit 20 in
        let skip := ((page - 1) * limit)%Z in
        let* found_messages := await_checked faults MessageFind
                                 (find_page conversation skip limit) in
        let* _ := await faults MessageUpdateMany
                    (update_many_read
                       (λ m, bool_decide (conversationId m = conversation)
                             && bool_decide (recipient m = userId)
                             && bool_decide (read m = false))) in
        let* _ := await faults ConversationSave (save_conversation (set_unread c userId 0)) in
        hret (mkResponse 200 (success_messages (reverse found_messages)))
  end.

(** [getMessages] of the controller, for the authenticated [userId]. *)
Definition getMessages (faults : Faults) (userId conversation : string)
    (page limit : option Z) : World → World * Response :=
  respond (getMessages_body faults userId conversation page limit)
    (mkResponse 500 (failure "Error fetching messages")).

(** [Conversation.findOne({ participants: { $all: [userId, recipientId] } })] *)
Definition find_conversation_of (userId recipientId : string) (w : World)
    : World * option Conversation :=
  (w, List.find (λ c, bool_decide (userId ∈ participants c)
                      && bool_decide (recipientId ∈ participants c))
        (map_to_list (conversations w)).*2).

(** [Conversation.create(...)] with the [_id] the driver drew; the
    collection refuses an [_id] it already holds. *)
Definition create_conversation (c : Conversation) (w : World)
    : option (World * Conversation) :=
  match conversations w !! conv_id c with
  | Some _ => None
  | None => Some (with_conversations (insert (conv_id c) c) w, c)
  end.

Definition findOrCreateConversation_body (faults : Faults) (userId recipientId : string)
    (drawn_id : string) : Handler Response :=
  let* recipient := await faults UserFindById
                      (λ w, (w, bool_decide (recipientId ∈ users w))) in
  if negb recipient
  then hret (mkResponse 404 (failure "Recipient user not found"))
  else
    let* found := await faults ConversationFindOne
                    (find_conversation_of userId recipientId) in
    match found with
    | Some c => hret (mkResponse 200 (success_conversation c))
    | None =>
        let* created := await_checked faults ConversationCreate
                          (create_conversation
                             (mkConversation drawn_id [userId; recipientId] None
                                (<[userId := 0]> (<[recipientId := 0]> ∅)))) in
        let* _ := await faults ConversationPopulate populate in
        hret (mkResponse 201 (success_conversation created))
    end.

(** [findOrCreateConversation] of the controller, for the authenticated
    [userId]. *)
Definition findOrCreateConversation (faults : Faults) (userId recipientId : string)
    (drawn_id : string) : World → World * Response :=
  respond (findOrCreateConversation_body faults userId recipientId drawn_id)
    (mkResponse 500 (failure "Error creating conversation")).

Record AddMessageBody := mkAddMessageBody {
  body_conversationId : string;
  body_content : option string;
  body_image : option Image;
}.

(** [content?.trim() || ""] *)
Definition trimmed_or_empty (s : option string) : string :=
  match s with
  | Some s => trim s
  | None => ""
  end.

(** [Message.create({...})].  The recipient is the first participant other
    than the sender; the collection refuses a message without one. *)
Definition create_message (userId : string) (recipientId : option string)
    (conversation : string) (text : option string) (img : option Image) (now : nat)
    (w : World) : option (World * Message) :=
  match recipientId with
  | Some r =>
      let m := mkMessage (new_id w) userId r conversation (Some (trimmed_or_empty text))
                 img None [] false false None false now in
      Some (with_messages (insert (_id m) m) w, m)
  | None => None
  end.

(** The [forEach] over the participants: every participant other than the
    sender gets one more unread message. *)
Definition bump_unread (userId : string) (ps : list string) (counts : gmap string nat)
    : gmap string nat :=
  foldl (λ acc p, if bool_decide (p ≠ userId)
                  then <[p := default 0 (acc !! p) + 1]> acc
                  else acc) counts ps.

Definition addMessage_body (faults : Faults) (userId : string) (now : nat)
    (b : AddMessageBody) : Handler Response :=
  if blank (body_content b) && negb (bool_decide (is_Some (body_image b)))
  then hret (mkResponse 400 (failure "Message must have text or an image"))
  else
    let* found := await faults ConversationFindById
                    (find_conversation (body_conversationId b)) in
    match found with
    | None => hret (mkResponse 404 (failure "Conversation not found"))
    | Some c =>
        if negb (bool_decide (userId ∈ participants c))
        then hret (mkResponse 403 (failure "No access to this conversation"))
        else
          let recipientId := List.find (λ p, bool_decide (p ≠ userId)) (participants c) in
          let* message := await_checked faults MessageCreate
                            (create_message userId recipientId (body_conversationId b)
                               (body_content b) (body_image b) now) in
          let c := mkConversation (conv_id c) (participants c) (Some (_id message))
                     (bump_unread userId (participants c) (unreadCount c)) in
          let* _ := await faults ConversationSave (save_conversation c) in
          let* _ := await faults MessagePopulate populate in
          hret (mkResponse 201 (success_message message))
    end.

(** [addMessage] of the controller. *)
Definition addMessage (faults : Faults) (userId : string) (now : nat)
    (b : AddMessageBody) : World → World * Response :=
  respond (addMessage_body faults userId now b)
    (mkResponse 500 (failure "Error adding message")).

(** The assignments of the controller's deleteMessage: [deleted], [content]
    and [image]. *)
Definition set_deleted (m : Message) : Message :=
  mkMessage (_id m) (sender m) (recipient m) (conversationId m) (Some tombstone) None
    (file m) (reactions m) (read m) (edited m) (editedAt m) true (createdAt m).

Definition deleteMessage_body (faults : Faults) (userId : string) (messageId : nat)
    : Handler Response :=
  let* found := await faults MessageFindById (find_message messageId) in
  match found with
  | None => hret (mkResponse 404 (failure "Message not found"))
  | Some message =>
      if bool_decide (sender message ≠ userId)
      then hret (mkResponse 403 (failure "You can only delete your own messages"))
      else
        let* _ := await faults MessageSave (save_message (set_deleted message)) in
        hret (mkResponse 200 (success_text "Message deleted successfully"))
  end.

(** [deleteMessage] of the controller. *)
Definition deleteMessage (faults : Faults) (userId : string) (messageId : nat)
    : World → World * Response :=
  respond (deleteMessage_body faults userId messageId)
    (mkResponse 500 (failure "Error deleting message")).

Definition editMessage_body (faults : Faults) (userId : string) (now : nat)
    (messageId : nat) (newContent : option string) : Handler Response :=
  if blank newContent
  then hret (mkResponse 400 (failure "Message content cannot be empty"))
  else
    let* found := await faults MessageFindById (find_message messageId) in
    match found with
    | None => hret (mkResponse 404 (failure "Message not found"))
    | Some message =>
        if bool_decide (sender message ≠ userId)
        then hret (mkResponse 403 (failure "You can only edit your own messages"))
        else
          let message := set_edited message (Some (trimmed_or_empty newContent)) now in
          let* _ := await faults MessageSave (save_message message) in
          let* _ := await faults MessagePopulate populate in
          hret (mkResponse 200 (success_message message))
    end.

(** [editMessage] of the controller. *)
Definition editMessage (faults : Faults) (userId : string) (now : nat)
    (messageId : nat) (newContent : option string) : World → World * Response :=
  respond (editMessage_body faults userId now messageId newContent)
    (mkResponse 500 (failure "Error editing message")).

(** *** Listing, lookup, search and removal of conversations *)

(** The store calls of the handlers below that the handlers above do not
    make. *)
Inductive MoreCall :=
  | ConversationFind
  | MessageDeleteMany
  | ConversationFindByIdAndDelete.

#[global] Instance MoreCall_eq_dec : EqDecision MoreCall.
Proof. solve_decision. Defined.

Definition MoreFaults := MoreCall → bool.

Definition no_more_faults : MoreFaults := λ _, false.

Definition await_more {A} (more : MoreFaults) (c : MoreCall) (op : World → World * A)
    : Handler A :=
  λ w, if more c then (w, Thrown)
       else let '(w', a) := op w in (w', Returned a).

(** [try { ... } catch { ... }] of a controller function, for any answer. *)
Definition respond_with {R} (body : Handler R) (on_error : R) : World → World * R :=
  λ w, match body w with
       | (w', Returned r) => (w', r)
       | (w', Thrown) => (w', on_error)
       end.

(** [.populate("participants", ...)]: the ids are replaced by the user
    documents; Mongoose drops the ids that have no document. *)
Definition populate_participants (w : World) (ps : list string) : list string :=
  filter (λ p, p ∈ users w) ps.

(** [.populate("lastMessage", ...)]: the message document, if it is stored. *)
Definition populate_lastMessage (w : World) (last : option nat) : option Message :=
  match last with
  | Some k => messages w !! k
  | None => None
  end.

(** A conversation as a query with both [populate]s returns it. *)
Record PopulatedConversation := mkPopulated {
  doc : Conversation;
  doc_participants : list string;
  doc_lastMessage : option Message;
}.

Definition populated (w : World) (c : Conversation) : PopulatedConversation :=
  mkPopulated c (populate_participants w (participants c))
    (populate_lastMessage w (lastMessage c)).

(** An entry of the list getConversations answers with. *)
Record ConversationSummary := mkSummary {
  summary_id : string;
  participant : option string;
  summary_lastMessage : option Message;
  summary_unreadCount : nat;
  summary_updatedAt : nat;
}.

Inductive ListingBody :=
  | listing_failure (text : string)
  | listing (conversations : list ConversationSummary).

Record ListingResponse := mkListing {
  listing_status : nat;
  listing_body : ListingBody;
}.

Definition has_participant (userId : string) (c : Conversation) : Prop :=
  userId ∈ participants c.

#[global] Instance has_participant_dec userId c : Decision (has_participant userId c).
Proof. unfold has_participant. apply _. Defined.

Section timestamps.

(** The [updatedAt] stamp the schema keeps on a conversation; the schema is
    not among the sources. *)
Variable updatedAt : Conversation → nat.

(** [.sort({ updatedAt: -1 })] *)
Definition recently_updated (a b : Conversation) : Prop := updatedAt b ≤ updatedAt a.

#[global] Instance recently_updated_dec a b : Decision (recently_updated a b).
Proof. unfold recently_updated. apply _. Defined.

(** [Conversation.find({ participants: userId }).populate(..).populate(..).sort(..)] *)
Definition find_conversations_of (userId : string) (w : World)
    : World * list PopulatedConversation :=
  (w, populated w <$> merge_sort recently_updated
                        (filter (has_participant userId) (map_to_list (conversations w)).*2)).

(** The formatting of one conversation: the first populated participant
    other than the caller, and [unreadCount.get(userId) || 0]. *)
Definition summarize (userId : string) (conv : PopulatedConversation) : ConversationSummary :=
  mkSummary (conv_id (doc conv))
    (List.find (λ p, bool_decide (p ≠ userId)) (doc_participants conv))
    (doc_lastMessage conv)
    (unread_or_zero (doc conv) userId)
    (updatedAt (doc conv)).

Definition getConversations_body (more : MoreFaults) (userId : string)
    : Handler ListingResponse :=
  let* found := await_more more ConversationFind (find_conversations_of userId) in
  hret (mkListing 200 (listing (summarize userId <$> found))).

(** [getConversations] of the controller, for the authenticated [userId]. *)
Definition getConversations (more : MoreFaults) (userId : string)
    : World → World * ListingResponse :=
  respond_with (getConversations_body more userId)
    (mkListing 500 (listing_failure "Error fetching conversations")).

End timestamps.

(** [Conversation.findById(id).populate(..).populate(..)]; the answer carries
    the populated participants. *)
Definition find_populated (id : string) (w : World) : World * option PopulatedConversation :=
  (w, populated w <$> conversations w !! id).

Definition getConversationById_body (faults : Faults) (userId conversation : string)
    : Handler Response :=
  let* found := await faults ConversationFindById (find_populated conversation) in
  match found with
  | None => hret (mkResponse 404 (failure "Conversation not found"))
  | Some c =>
      if negb (bool_decide (userId ∈ doc_participants c))
      then hret (mkResponse 403 (failure "You do not have access"))
      else hret (mkResponse 200
                   (success_conversation
                      (mkConversation (conv_id (doc c)) (doc_participants c)
                         (lastMessage (doc c)) (unreadCount (doc c)))))
  end.

(** [getConversationById] of the controller. *)
Definition getConversationById (faults : Faults) (userId conversation : string)
    : World → World * Response :=
  respond (getConversationById_body faults userId conversation)
    (mkResponse 500 (failure "Error fetching conversation")).

Section search.

(** The regular expressions of the store: [regex q] is [None] when the store
    refuses [q] as a pattern, and otherwise tells which texts [q] matches,
    letter case ignored. *)
Variable regex : string → option (string → bool).

(** [{ conversationId, content: { $regex: query, $options: "i" },
       deleted: { $ne: true } }]; a message without content matches no
    pattern. *)
Definition search_hit (conversation : string) (test : string → bool) (m : Message) : Prop :=
  conversationId m = conversation
  ∧ match content m with Some text => test text = true | None => False end
  ∧ deleted m ≠ true.

#[global] Instance search_hit_dec c test m : Decision (search_hit c test m).
Proof. unfold search_hit. destruct (content m); apply _. Defined.

(** [Message.find({...}).sort({ createdAt: -1 }).limit(20)] *)
Definition find_hits (conversation query : string) (w : World)
    : option (World * list Message) :=
  match regex query with
  | Some test =>
      Some (w, take 20 (merge_sort newest_first
                          (filter (search_hit conversation test)
                             (map_to_list (messages w)).*2)))
  | None => None
  end.

Definition searchMessages_body (faults : Faults) (userId conversation : string)
    (query : option string) : Handler Response :=
  match query with
  | Some q =>
      if blank (Some q)
      then hret (mkResponse 400 (failure "Search query is required"))
      else
        let* found := await faults ConversationFindById (find_conversation conversation) in
        if match found with
           | Some c => negb (bool_decide (userId ∈ participants c))
           | None => true
           end
        then hret (mkResponse 403 (failure "You do not have access to this conversation"))
        else
          let* hits := await_checked faults MessageFind (find_hits conversation q) in
          hret (mkResponse 200 (success_messages hits))
  | None => hret (mkResponse 400 (failure "Search query is required"))
  end.

(** [searchMessages] of the controller. *)
Definition searchMessages (faults : Faults) (userId conversation : string)
    (query : option string) : World → World * Response :=
  respond (searchMessages_body faults userId conversation query)
    (mkResponse 500 (failure "Error searching messages")).

End search.

(** [Message.deleteMany({ conversationId })] *)
Definition delete_messages_of (conversation : string) (w : World) : World * unit :=
  (with_messages (filter (λ km, conversationId km.2 ≠ conversation)) w, tt).

(** [Conversation.findByIdAndDelete(conversationId)] *)
Definition delete_conversation (conversation : string) (w : World) : World * unit :=
  (with_conversations (delete conversation) w, tt).

Definition deleteConversation_body (faults : Faults) (more : MoreFaults)
    (userId conversation : string) : Handler Response :=
  let* found := await faults ConversationFindById (find_conversation conversation) in
  match found with
  | None => hret (mkResponse 404 (failure "Conversation not found"))
  | Some c =>
      if negb (bool_decide (userId ∈ participants c))
      then hret (mkResponse 403 (failure "You do not have access to this conversation"))
      else
        let* _ := await_more more MessageDeleteMany (delete_messages_of conversation) in
        let* _ := await_more more ConversationFindByIdAndDelete
                    (delete_conversation conversation) in
        hret (mkResponse 200 (success_text "Conversation deleted successfully"))
  end.

(** [deleteConversation] of the controller. *)
Definition deleteConversation (faults : Faults) (more : MoreFaults)
    (userId conversation : string) : World → World * Response :=
  respond (deleteConversation_body faults more userId conversation)
    (mkResponse 500 (failure "Error deleting conversation")).

End Controller.

Import Socket Controller.

(** ** Store invariants and counting *)

(** Every document is stored under its own [_id]. *)
Definition well_keyed (w : World) : Prop :=
  map_Forall (λ k c, conv_id c = k) (conversations w)
  ∧ map_Forall (λ k m, _id m = k) (messages w).

(** A message of conversation [c], addressed to [p], not read yet. *)
Definition unread_for (c p : string) (m : Message) : Prop :=
  conversationId m = c ∧ recipient m = p ∧ read m = false.

#[global] Instance unread_for_dec c p m : Decision (unread_for c p m).
Proof. unfold unread_for. apply _. Defined.

(** The number of stored messages of [c] addressed to [p] with [read = false]. *)
Definition unread_messages (w : World) (c p : string) : nat :=
  size (filter (λ km, unread_for c p km.2) (messages w)).

(** The stored counter, read as the code reads it: [unreadCount.get(p) || 0]
    (and 0 while the conversation has no document). *)
Definition unread_counter (w : World) (c p : string) : nat :=
  match conversations w !! c with
  | Some conv => unread_or_zero conv p
  | None => 0
  end.

Definition counters_exact (w : World) : Prop :=
  ∀ c p, unread_counter w c p = unread_messages w c p.

(** A read receipt that names, among the unread messages, exactly those of
    [conversation] addressed to the reader. *)
Definition exact_receipt (w : World) (userId conversation : string)
    (messageIds : list nat) : Prop :=
  map_Forall (λ _ m, read m = false →
                     (_id m ∈ messageIds ↔ conversationId m = conversation ∧ recipient m = userId))
    (messages w).

#[global] Instance exact_receipt_dec w u c l : Decision (exact_receipt w u c l).
Proof. unfold exact_receipt. apply _. Defined.

(** Sequences of sendMessage and markAsRead events, every store call
    succeeding. *)
Inductive Op :=
  | Send (userId socketId : string) (now : nat) (d : MessageData)
  | MarkAsRead (userId conversation : string) (messageIds : list nat).

Definition step (w : World) (op : Op) : World :=
  match op with
  | Send userId socketId now d => sendMessage no_faults userId socketId now d w
  | MarkAsRead userId conversation messageIds =>
      markAsRead no_faults userId conversation messageIds w
  end.

Fixpoint exact_receipts (w : World) (ops : list Op) : Prop :=
  match ops with
  | [] => True
  | op :: ops =>
      match op with
      | MarkAsRead userId conversation messageIds =>
          exact_receipt w userId conversation messageIds
      | Send _ _ _ _ => True
      end ∧ exact_receipts (step w op) ops
  end.

(** The (user, emoji) pairs that have a reaction. *)
Definition reaction_keys (rs : list Reaction) : gset (string * string) :=
  list_to_set ((λ r, (user r, emoji r)) <$> rs).

(** ** The chat router *)

Module Router.

Inductive Method := GET | POST | PUT | DELETE.

#[global] Instance Method_eq_dec : EqDecision Method.
Proof. solve_decision. Defined.

(** A piece of a route path: a literal or a [:name] parameter. *)
Inductive Piece :=
  | lit (text : string)
  | param (name : string).

(** The controller functions the router mounts. *)
Inductive Endpoint :=
  | getConversations
  | getConversationById
  | getMessages
  | findOrCreateConversation
  | addMessage
  | deleteMessage
  | editMessage
  | searchMessages
  | deleteConversation.

#[global] Instance Endpoint_eq_dec : EqDecision Endpoint.
Proof. solve_decision. Defined.

(** The routes of [chatRouter], in the order they are registered. *)
Definition chatRouter : list (Method * list Piece * Endpoint) :=
  [ (GET, [lit "conversations"], getConversations);
    (GET, [lit "conversations"; param "conversationId"], getConversationById);
    (GET, [lit "conversations"; param "conversationId"; lit "messages"], getMessages);
    (GET, [lit "conversations"; lit "user"; param "recipientId"], findOrCreateConversation);
    (POST, [lit "messages"], addMessage);
    (DELETE, [lit "messages"; param "messageId"], deleteMessage);
    (PUT, [lit "messages"; param "messageId"], editMessage);
    (GET, [lit "conversations"; param "conversationId"; lit "search"], searchMessages);
    (DELETE, [lit "conversations"; param "conversationId"], deleteConversation) ].

Definition lower_ascii (a : Ascii.ascii) : Ascii.ascii :=
  let n := Ascii.nat_of_ascii a in
  if bool_decide (65 ≤ n ≤ 90) then Ascii.ascii_of_nat (n + 32) else a.

Fixpoint lower (s : string) : string :=
  match s with
  | String a s' => String (lower_ascii a) (lower s')
  | EmptyString => EmptyString
  end.

(** The regular expression of a route, run on the segments of the
    request path below the mount point, as they arrive: a literal ignores
    letter case, a parameter captures any segment that is not empty, and
    one trailing slash (an empty last segment) is allowed.  The result
    holds the captures, still percent-encoded. *)
Fixpoint regexp_exec (route : list Piece) (path : list string)
    : option (list (string * string)) :=
  match route, path with
  | [], [] => Some []
  | [], [last] => if bool_decide (last = "") then Some [] else None
  | lit text :: route, segment :: path =>
      if bool_decide (lower segment = lower text) then regexp_exec route path else None
  | param name :: route, segment :: path =>
      if bool_decide (segment = "") then None
      else cons (name, segment) <$> regexp_exec route path
  | _, _ => None
  end.

(** What matching one route against a path gives: no match, the bound
    parameters, or the error of a capture that does not decode. *)
Inductive LayerMatch :=
  | NoMatch
  | Matched (params : list (string * string))
  | DecodeFailed.

(** What the router does with a request. *)
Inductive Routing :=
  | Handled (endpoint : Endpoint) (params : list (string * string))
  | BadRequest
  | NoRoute.

Section decoding.

(** [decodeURIComponent] of the engine; [None] stands for its URIError. *)
Variable decodeURIComponent : string → option string.

(** Each capture is decoded before it is bound. *)
Fixpoint decode_params (captures : list (string * string))
    : option (list (string * string)) :=
  match captures with
  | (name, segment) :: captures =>
      match decodeURIComponent segment with
      | Some value => cons (name, value) <$> decode_params captures
      | None => None
      end
  | [] => Some []
  end.

(** A route matches when its regular expression does; its parameters are
    the decoded captures, and a capture that does not decode is an error
    with status 400. *)
Definition match_path (route : list Piece) (path : list string) : LayerMatch :=
  match regexp_exec route path with
  | Some captures =>
      match decode_params captures with
      | Some params => Matched params
      | None => DecodeFailed
      end
  | None => NoMatch
  end.

(** The routes are tried in the order they were registered.  The path is
    matched before the method is looked at; the first route that matches
    both takes the request; once a capture failed to decode no later route
    matches and the request is answered with the error. *)
Fixpoint dispatch_in (routes : list (Method * list Piece * Endpoint)) (method : Method)
    (path : list string) : Routing :=
  match routes with
  | (m, route, endpoint) :: routes =>
      match match_path route path with
      | Matched params =>
          if bool_decide (m = method) then Handled endpoint params
          else dispatch_in routes method path
      | DecodeFailed => BadRequest
      | NoMatch => dispatch_in routes method path
      end
  | [] => NoRoute
  end.

Definition dispatch : Method → list string → Routing :=
  dispatch_in chatRouter.

End decoding.

End Router.

(** ** Requests *)

(** The messages an answer of the controller carries. *)
Definition answered_messages (r : Response) : list Message :=
  match body r with
  | success_messages ms => ms
  | _ => []
  end.


(** The events and requests that can change the state.  The answers of the
    controller are dropped here. *)
Inductive Request :=
  | Connect (userId socketId : string)
  | Disconnect (userId socketId : string)
  | Typing (userId socketId conversation : string) (isTyping : bool)
  | SendMessage (userId socketId : string) (now : nat) (d : MessageData)
  | MarkRead (userId conversation : string) (messageIds : list nat)
  | React (userId socketId : string) (now : nat) (messageId : nat) (e : string)
  | SocketEdit (userId socketId : string) (now : nat) (messageId : nat)
      (newContent : option string)
  | SocketDelete (userId socketId : string) (messageId : nat)
  | GetMessages (userId conversation : string) (page limit : option Z)
  | FindOrCreate (userId recipientId drawn_id : string)
  | AddMessage (userId : string) (now : nat) (b : AddMessageBody)
  | RestEdit (userId : string) (now : nat) (messageId : nat) (newContent : option string)
  | RestDelete (userId : string) (messageId : nat)
  | DeleteConversation (userId conversation : string).

Definition handle (faults : Faults) (more : MoreFaults) (r : Request) (w : World) : World :=
  match r with
  | Connect userId socketId => connection userId socketId w
  | Disconnect userId socketId => disconnect userId socketId w
  | Typing userId socketId conversation isTyping =>
      typing userId socketId conversation isTyping w
  | SendMessage userId socketId now d => sendMessage faults userId socketId now d w
  | MarkRead userId conversation messageIds =>
      markAsRead faults userId conversation messageIds w
  | React userId socketId now messageId e =>
      addReaction faults userId socketId now messageId e w
  | SocketEdit userId socketId now messageId newContent =>
      Socket.editMessage faults userId socketId now messageId newContent w
  | SocketDelete userId socketId messageId =>
      Socket.deleteMessage faults userId socketId messageId w
  | GetMessages userId conversation page limit =>
      (Controller.getMessages faults userId conversation page limit w).1
  | FindOrCreate userId recipientId drawn_id =>
      (Controller.findOrCreateConversation faults userId recipientId drawn_id w).1
  | AddMessage userId now b => (Controller.addMessage faults userId now b w).1
  | RestEdit userId now messageId newContent =>
      (Controller.editMessage faults userId now messageId newContent w).1
  | RestDelete userId messageId => (Controller.deleteMessage faults userId messageId w).1
  | DeleteConversation userId conversation =>
      (Controller.deleteConversation faults more userId conversation w).1
  end.

(** A run: each request comes with the store calls that reject during it. *)
Definition run (w : World) (rs : list (Faults * MoreFaults * Request)) : World :=
  foldl (λ w r, handle r.1.1 r.1.2 r.2 w) w rs.

(** The one request that removes messages. *)
Definition removes_messages (r : Request) : bool :=
  match r with
  | DeleteConversation _ _ => true
  | _ => false
  end.

(** The events and requests that change one stored message and nothing
    else. *)
Definition changes_one_message (r : Request) : bool :=
  match r with
  | React _ _ _ _ _ | SocketEdit _ _ _ _ _ | SocketDelete _ _ _
  | RestEdit _ _ _ _ | RestDelete _ _ => true
  | _ => false
  end.

(** What an event or request can make of a stored message. *)
Inductive evolves (m : Message) : Message → Prop :=
  | evolves_reaction userId e now :
      evolves m (set_reactions m (toggle_reaction userId e now (reactions m)))
  | evolves_edit newContent now : evolves m (set_edited m newContent now)
  | evolves_socket_delete : evolves m (Socket.set_deleted m)
  | evolves_rest_delete : evolves m (Controller.set_deleted m).

(** What an event or request other than deleteConversation can make of the
    Message collection: nothing, one new message, one stored message saved
    after a change, or some messages marked as read. *)
Inductive messages_step (ms : gmap nat Message) : gmap nat Message → Prop :=
  | step_same : messages_step ms ms
  | step_new m :
      ms !! _id m = None → file m = None → reactions m = [] → read m = false →
      messages_step ms (<[_id m := m]> ms)
  | step_save k m m' :
      ms !! k = Some m → evolves m m' → messages_step ms (<[_id m' := m']> ms)
  | step_read sel :
      messages_step ms ((λ m, if sel m : bool then set_read m else m) <$> ms).

(** No stored message carries a file. *)
Definition no_files (w : World) : Prop :=
  map_Forall (λ _ m, file m = None) (messages w).

(** No stored message has two reactions of one user with one emoji. *)
Definition reactions_unique (w : World) : Prop :=
  map_Forall (λ _ m, NoDup ((λ r, (user r, emoji r)) <$> reactions m)) (messages w).

(** A conversation of two different users. *)
Definition two_party (c : Conversation) : bool :=
  match participants c with
  | [a; b] => bool_decide (a ≠ b)
  | _ => false
  end.

(** The requests under which the counters stay exact when the store calls
    succeed: a read receipt is exact, and addMessage is used on
    conversations of two different users. *)
Definition admissible (w : World) (r : Request) : Prop :=
  match r with
  | MarkRead userId conversation messageIds =>
      exact_receipt w userId conversation messageIds
  | AddMessage userId now b =>
      match conversations w !! body_conversationId b with
      | Some c => two_party c = true
      | None => True
      end
  | _ => True
  end.

Fixpoint all_admissible (w : World) (rs : list Request) : Prop :=
  match rs with
  | [] => True
  | r :: rs => admissible w r ∧ all_admissible (handle no_faults no_more_faults r w) rs
  end.

(** ** Proofs *)

Ltac run_handler :=
  unfold try_catch, respond, hbind, await, await_checked, emit, hret,
    find_message, find_conversation, save_message, save_conversation,
    update_many_read, populate;
  simpl.

(** A branch of addMessage past the content check: the answer is not 400. *)
Ltac passes_validation :=
  split; [split; [done|by intros [? ?]]|done].

(** *** Presence *)

(** C5 (as the code has it): a disconnect removes the user's entry from
    [onlineUsers] and broadcasts the offline status to everyone, whatever
    other connections the user has; only the closed socket leaves the
    connection table. *)
Theorem disconnect_always_offline (userId socketId : string) (w : World) :
  let w' := disconnect userId socketId w in
  onlineUsers w' !! userId = None
  ∧ outbox w' = outbox w ++ [(IoEmit, userStatus userId false)]
  ∧ sockets w' = delete socketId (sockets w).
Proof.
  simpl. split; [apply lookup_delete_eq | done].
Qed.

(** C5 fails as stated: user "u" holds two live connections; closing the
    first one broadcasts the offline status and leaves "u" without an entry
    in [onlineUsers], although the second connection is still live. *)
Lemma disconnect_with_second_connection :
  let w := connection "u" "s2" (connection "u" "s1" empty_world) in
  let w' := disconnect "u" "s1" w in
  sockets w !! "s1" = Some "u" ∧ sockets w !! "s2" = Some "u"
  ∧ sockets w' !! "s2" = Some "u"
  ∧ last (outbox w') = Some (IoEmit, userStatus "u" false)
  ∧ onlineUsers w' !! "u" = None.
Proof. vm_compute. done. Qed.

(** *** Read receipts *)

(** C10: once the update of markAsRead has gone through, every stored
    message whose id is in the list has [read = true], whoever its
    recipient is and whatever conversation it belongs to; nothing else of
    the message changes. *)
Theorem markAsRead_marks_listed (faults : Faults) (userId conversation : string)
    (messageIds : list nat) (w : World) (k : nat) (m : Message) :
  faults MessageUpdateMany = false →
  messages w !! k = Some m →
  _id m ∈ messageIds →
  messages (markAsRead faults userId conversation messageIds w) !! k = Some (set_read m)
  ∧ read (set_read m) = true.
Proof.
  intros Hf Hm Hin. split; [|done].
  assert (Hupd : (λ m0, if bool_decide (_id m0 ∈ messageIds) then set_read m0 else m0)
                   <$> messages w !! k = Some (set_read m)).
  { rewrite Hm. simpl. by rewrite bool_decide_eq_true_2. }
  unfold markAsRead, markAsRead_body. run_handler. rewrite Hf.
  destruct (faults ConversationFindById); simpl.
  { by rewrite lookup_fmap. }
  destruct (conversations w !! conversation); simpl.
  - destruct (faults ConversationSave); simpl; by rewrite lookup_fmap.
  - by rewrite lookup_fmap.
Qed.

Lemma markAsRead_marks_listed_witness :
  let d := mkMessageData "b" (Some "hi") "c" None in
  let w := sendMessage no_faults "a" "s1" 5 d empty_world in
  messages (markAsRead no_faults "a" "elsewhere" [0] w) !! 0
    = Some (set_read (new_message empty_world "a" 5 d))
  ∧ read (set_read (new_message empty_world "a" 5 d)) = true.
Proof.
  apply (markAsRead_marks_listed no_faults "a" "elsewhere" [0]
           (sendMessage no_faults "a" "s1" 5 (mkMessageData "b" (Some "hi") "c" None)
              empty_world) 0).
  - reflexivity.
  - vm_compute. reflexivity.
  - vm_compute. apply list_elem_of_here.
Defined.

(** *** Sending *)

Lemma new_id_fresh (w : World) : messages w !! new_id w = None.
Proof. unfold new_id. apply not_elem_of_dom. apply is_fresh. Qed.

(** What sendMessage leaves in the two collections and the outbox when no
    store call rejects. *)
Lemma sendMessage_ok (userId socketId : string) (now : nat) (d : MessageData) (w : World) :
  let m := new_message w userId now d in
  let w' := sendMessage no_faults userId socketId now d w in
  messages w' = <[new_id w := m]> (messages w)
  ∧ conversations w' =
      <[match conversations w !! msg_conversationId d with
        | Some c => conv_id c
        | None => msg_conversationId d
        end :=
        match conversations w !! msg_conversationId d with
        | Some c =>
            set_lastMessage_unread c (new_id w) (recipientId d)
              (unread_or_zero c (recipientId d) + 1)
        | None =>
            mkConversation (msg_conversationId d) [userId; recipientId d] (Some (new_id w))
              {[ recipientId d := 1 ]}
        end]> (conversations w)
  ∧ ∃ rest, outbox w' = outbox w ++ (IoTo (msg_conversationId d), newMessage m) :: rest.
Proof.
  unfold sendMessage, sendMessage_body. run_handler.
  destruct (conversations w !! msg_conversationId d) as [c|]; simpl;
    (destruct (onlineUsers w !! recipientId d) as [s|]; simpl;
     [destruct (negb (bool_decide (s = ""))); simpl|]);
    (split; [done|split; [done|]]); rewrite <- ?app_assoc; eauto.
Qed.

(** C2 (as the code has it): when a store call of sendMessage rejects, the
    only event emitted is the messageError to the sender's own socket, no
    conversation document changes, and neither do the presence map nor the
    connection table; the Message collection is unchanged when it is the
    message save that rejected, and holds the new message otherwise. *)
Theorem sendMessage_failure (faults : Faults) (userId socketId : string) (now : nat)
    (d : MessageData) (w : World) :
  faults MessageSave || faults MessagePopulate
    || faults ConversationFindById || faults ConversationSave = true →
  let w' := sendMessage faults userId socketId now d w in
  outbox w' = outbox w ++ [(SocketEmit socketId, messageError "Failed to send message")]
  ∧ conversations w' = conversations w
  ∧ onlineUsers w' = onlineUsers w
  ∧ sockets w' = sockets w
  ∧ messages w' = if faults MessageSave then messages w
                  else <[new_id w := new_message w userId now d]> (messages w).
Proof.
  intros Hf. unfold sendMessage, sendMessage_body. run_handler.
  destruct (faults MessageSave); simpl; [done|].
  destruct (faults MessagePopulate); simpl; [done|].
  destruct (faults ConversationFindById); simpl; [done|].
  destruct (faults ConversationSave); simpl; [|done].
  by destruct (conversations w !! msg_conversationId d).
Qed.

Lemma sendMessage_failure_witness :
  let faults := λ c, bool_decide (c = MessageSave) in
  let d := mkMessageData "b" (Some "hi") "c" None in
  let w' := sendMessage faults "a" "s1" 5 d empty_world in
  outbox w' = outbox empty_world
                ++ [(SocketEmit "s1", messageError "Failed to send message")]
  ∧ conversations w' = conversations empty_world
  ∧ onlineUsers w' = onlineUsers empty_world
  ∧ sockets w' = sockets empty_world
  ∧ messages w' = if faults MessageSave then messages empty_world
                  else <[new_id empty_world := new_message empty_world "a" 5 d]>
                         (messages empty_world).
Proof.
  apply (sendMessage_failure (λ c, bool_decide (c = MessageSave)) "a" "s1" 5
           (mkMessageData "b" (Some "hi") "c" None) empty_world).
  reflexivity.
Defined.

(** C2 fails as stated: the save of the conversation rejects after the
    message was saved; the sender gets the messageError, no conversation
    exists, and the Message collection holds the new message all the same. *)
Lemma sendMessage_failure_keeps_message :
  let faults := λ c, bool_decide (c = ConversationSave) in
  let d := mkMessageData "b" (Some "hi") "c" None in
  let w' := sendMessage faults "a" "s1" 5 d empty_world in
  faults ConversationSave = true
  ∧ outbox w' = [(SocketEmit "s1", messageError "Failed to send message")]
  ∧ conversations w' !! "c" = None
  ∧ messages empty_world !! 0 = None
  ∧ messages w' !! 0 = Some (new_message empty_world "a" 5 d).
Proof. vm_compute. done. Qed.

(** C3 on the socket handler: a sendMessage whose content is absent, empty
    or white space only and that carries no image is not refused: with the
    store calls succeeding the message is stored and broadcast to the room
    as a new message. *)
Theorem sendMessage_blank_is_stored (userId socketId : string) (now : nat)
    (d : MessageData) (w : World) :
  blank (msg_content d) = true →
  msg_image d = None →
  let m := new_message w userId now d in
  let w' := sendMessage no_faults userId socketId now d w in
  messages w !! _id m = None
  ∧ messages w' !! _id m = Some m
  ∧ image m = None
  ∧ blank (content m) = true
  ∧ ∃ rest, outbox w' = outbox w ++ (IoTo (msg_conversationId d), newMessage m) :: rest.
Proof.
  intros Hb Hi.
  destruct (sendMessage_ok userId socketId now d w) as (Hm & _ & Ho).
  simpl. split; [apply new_id_fresh|].
  split; [rewrite Hm; apply lookup_insert_eq|].
  split; [done|]. split; [|done].
  by destruct (truthy (msg_content d)).
Qed.

Lemma sendMessage_blank_is_stored_witness :
  let d := mkMessageData "b" (Some "   ") "c" None in
  let m := new_message empty_world "a" 5 d in
  let w' := sendMessage no_faults "a" "s1" 5 d empty_world in
  messages empty_world !! _id m = None
  ∧ messages w' !! _id m = Some m
  ∧ image m = None
  ∧ blank (content m) = true
  ∧ ∃ rest, outbox w' = outbox empty_world ++ (IoTo (msg_conversationId d), newMessage m) :: rest.
Proof.
  apply (sendMessage_blank_is_stored "a" "s1" 5 (mkMessageData "b" (Some "   ") "c" None)
           empty_world); reflexivity.
Defined.

(** C4 on the code: a sendMessage whose conversation id has no document
    creates one with the sender and the recipient as participants and with
    an unread-count map that holds the single entry recipient ↦ 1; a sender
    other than the recipient has no entry at all. *)
Theorem sendMessage_creates_conversation (userId socketId : string) (now : nat)
    (d : MessageData) (w : World) :
  conversations w !! msg_conversationId d = None →
  ∃ c, conversations (sendMessage no_faults userId socketId now d w) !! msg_conversationId d
         = Some c
       ∧ participants c = [userId; recipientId d]
       ∧ lastMessage c = Some (new_id w)
       ∧ unreadCount c = {[ recipientId d := 1 ]}
       ∧ unreadCount c !! recipientId d = Some 1
       ∧ (userId ≠ recipientId d → unreadCount c !! userId = None).
Proof.
  intros Hc.
  destruct (sendMessage_ok userId socketId now d w) as (_ & Hcs & _).
  simpl in Hcs. rewrite Hc in Hcs. rewrite Hcs, lookup_insert_eq.
  eexists. split; [done|]. simpl. repeat split.
  - apply lookup_singleton_eq.
  - intros Hne. by apply lookup_singleton_ne.
Qed.

Lemma sendMessage_creates_conversation_witness :
  ∃ c, conversations (sendMessage no_faults "a" "s1" 5
                        (mkMessageData "b" (Some "hi") "c" None) empty_world) !! "c"
         = Some c
       ∧ participants c = ["a"; "b"]
       ∧ lastMessage c = Some (new_id empty_world)
       ∧ unreadCount c = {[ "b" := 1 ]}
       ∧ unreadCount c !! "b" = Some 1
       ∧ ("a" ≠ "b" → unreadCount c !! "a" = None).
Proof.
  apply (sendMessage_creates_conversation "a" "s1" 5
           (mkMessageData "b" (Some "hi") "c" None) empty_world).
  reflexivity.
Defined.

(** *** Edit and delete *)

(** C7 on the socket handler: an edit by the sender whose new content is
    absent, empty or white space only is not refused: the stored content is
    overwritten with it, the message is flagged as edited, and the edited
    message is broadcast to the room; no editError is emitted. *)
Theorem socket_editMessage_blank_overwrites (userId socketId : string) (now : nat)
    (messageId : nat) (newContent : option string) (m : Message) (w : World) :
  blank newContent = true →
  messages w !! messageId = Some m →
  _id m = messageId →
  sender m = userId →
  let w' := Socket.editMessage no_faults userId socketId now messageId newContent w in
  messages w' !! messageId = Some (set_edited m newContent now)
  ∧ content (set_edited m newContent now) = newContent
  ∧ edited (set_edited m newContent now) = true
  ∧ outbox w' = outbox w ++ [(IoTo (conversationId m), messageEdited (set_edited m newContent now))].
Proof.
  intros _ Hm Hid Hs. unfold Socket.editMessage, Socket.editMessage_body. run_handler.
  rewrite Hm. simpl. rewrite bool_decide_eq_false_2 by (intros Hne; by apply Hne).
  simpl. rewrite Hid. by rewrite lookup_insert_eq.
Qed.

Lemma socket_editMessage_blank_overwrites_witness :
  let d := mkMessageData "b" (Some "hi") "c" None in
  let m := new_message empty_world "a" 5 d in
  let w := sendMessage no_faults "a" "s1" 5 d empty_world in
  let w' := Socket.editMessage no_faults "a" "s1" 7 0 (Some "  ") w in
  messages w' !! 0 = Some (set_edited m (Some "  ") 7)
  ∧ content (set_edited m (Some "  ") 7) = Some "  "
  ∧ edited (set_edited m (Some "  ") 7) = true
  ∧ outbox w' = outbox w ++ [(IoTo (conversationId m), messageEdited (set_edited m (Some "  ") 7))].
Proof.
  apply (socket_editMessage_blank_overwrites "a" "s1" 7 0 (Some "  ")
           (new_message empty_world "a" 5 (mkMessageData "b" (Some "hi") "c" None))
           (sendMessage no_faults "a" "s1" 5 (mkMessageData "b" (Some "hi") "c" None)
              empty_world));
    reflexivity.
Defined.

(** *** Reactions *)

Section toggle.
Variables (userId e : string).

Lemma existing_reaction_None (rs : list Reaction) :
  existing_reaction userId e rs = None ↔ Forall (λ r, ¬ same_reaction userId e r) rs.
Proof.
  unfold existing_reaction. induction rs as [|r rs IH]; simpl.
  - split; [constructor|done].
  - case_bool_decide as Hr.
    + split; [done|]. intros HF. by inversion HF.
    + rewrite IH. split; [by constructor|]. intros HF. by inversion HF.
Qed.

Lemma filter_others_id (rs : list Reaction) :
  Forall (λ r, ¬ same_reaction userId e r) rs →
  filter (λ r, ¬ same_reaction userId e r) rs = rs.
Proof.
  induction 1 as [|r rs Hr _ IH]; [done|].
  rewrite filter_cons. rewrite decide_True by done. by rewrite IH.
Qed.

Lemma filter_others_Forall (rs : list Reaction) :
  Forall (λ r, ¬ same_reaction userId e r) (filter (λ r, ¬ same_reaction userId e r) rs).
Proof. apply Forall_forall. intros r Hr. by apply list_elem_of_filter in Hr as [? _]. Qed.

Lemma existing_reaction_appended (now : nat) (rs : list Reaction) :
  existing_reaction userId e rs = None →
  existing_reaction userId e (rs ++ [mkReaction userId e now]) = Some (mkReaction userId e now).
Proof.
  unfold existing_reaction. induction rs as [|r rs IH]; simpl.
  - intros _. by rewrite bool_decide_eq_true_2.
  - destruct (bool_decide (same_reaction userId e r)); [done|]. apply IH.
Qed.

(** A pair that had no reaction: the second toggle removes what the first
    one appended. *)
Lemma toggle_twice_absent (t1 t2 : nat) (rs : list Reaction) :
  existing_reaction userId e rs = None →
  toggle_reaction userId e t2 (toggle_reaction userId e t1 rs) = rs.
Proof.
  intros Hnone. unfold toggle_reaction at 2. rewrite Hnone.
  unfold toggle_reaction. rewrite (existing_reaction_appended t1 rs Hnone).
  rewrite filter_app, filter_others_id by (by apply existing_reaction_None).
  rewrite filter_cons, decide_False; [by rewrite filter_nil, app_nil_r|].
  intros Hne. by apply Hne.
Qed.

(** A pair that had a reaction: the first toggle drops every reaction of
    the pair and the second appends a new one, stamped [t2]. *)
Lemma toggle_twice_present (t1 t2 : nat) (rs : list Reaction) (r : Reaction) :
  existing_reaction userId e rs = Some r →
  toggle_reaction userId e t2 (toggle_reaction userId e t1 rs)
  = filter (λ r, ¬ same_reaction userId e r) rs ++ [mkReaction userId e t2].
Proof.
  intros Hsome. unfold toggle_reaction at 2. rewrite Hsome.
  unfold toggle_reaction.
  by rewrite (proj2 (existing_reaction_None _) (filter_others_Forall rs)).
Qed.

Lemma toggle_twice_keys (t1 t2 : nat) (rs : list Reaction) :
  reaction_keys (toggle_reaction userId e t2 (toggle_reaction userId e t1 rs))
  = reaction_keys rs.
Proof.
  destruct (existing_reaction userId e rs) as [r|] eqn:Hfind.
  - rewrite (toggle_twice_present t1 t2 rs r Hfind).
    apply find_some in Hfind as [Hin Hr]. apply bool_decide_eq_true_1 in Hr.
    destruct Hr as [Hu He]. apply list_elem_of_In in Hin.
    apply set_eq. intros k. unfold reaction_keys.
    rewrite !elem_of_list_to_set, !list_elem_of_fmap. split.
    + intros (x & -> & Hx). apply elem_of_app in Hx as [Hx|Hx].
      * apply list_elem_of_filter in Hx as [_ Hx]. eauto.
      * apply list_elem_of_singleton in Hx as ->. simpl.
        exists r. by rewrite Hu, He.
    + intros (x & -> & Hx).
      destruct (decide (same_reaction userId e x)) as [[Hxu Hxe]|Hno].
      * exists (mkReaction userId e t2). simpl. rewrite Hxu, Hxe. split; [done|].
        apply elem_of_app. right. apply list_elem_of_here.
      * exists x. split; [done|]. apply elem_of_app. left.
        by apply list_elem_of_filter.
  - by rewrite (toggle_twice_absent t1 t2 rs Hfind).
Qed.

Lemma existing_reaction_keys (rs : list Reaction) :
  (userId, e) ∉ reaction_keys rs → existing_reaction userId e rs = None.
Proof.
  intros Hnot. apply existing_reaction_None, Forall_forall. intros r Hr [Hu He].
  apply Hnot. unfold reaction_keys.
  apply elem_of_list_to_set, list_elem_of_fmap. exists r. by rewrite Hu, He.
Qed.
End toggle.

Lemma addReaction_ok (userId socketId : string) (now : nat) (messageId : nat) (e : string)
    (m : Message) (w : World) :
  messages w !! messageId = Some m →
  _id m = messageId →
  messages (addReaction no_faults userId socketId now messageId e w)
  = <[messageId := set_reactions m (toggle_reaction userId e now (reactions m))]> (messages w).
Proof.
  intros Hm Hid. unfold addReaction, addReaction_body. run_handler.
  rewrite Hm. simpl. by rewrite Hid.
Qed.

(** C6: two addReaction events by the same user with the same emoji on a
    stored message leave the message with the set of (user, emoji) pairs it
    had; nothing but the reactions changes, and when the pair had no
    reaction before, the reaction sequence itself is the one it was. *)
Theorem addReaction_twice (userId s1 s2 : string) (t1 t2 : nat) (messageId : nat)
    (e : string) (m : Message) (w : World) :
  messages w !! messageId = Some m →
  _id m = messageId →
  let w' := addReaction no_faults userId s2 t2 messageId e
              (addReaction no_faults userId s1 t1 messageId e w) in
  ∃ m', messages w' !! messageId = Some m'
        ∧ reaction_keys (reactions m') = reaction_keys (reactions m)
        ∧ m' = set_reactions m (reactions m')
        ∧ ((userId, e) ∉ reaction_keys (reactions m) → reactions m' = reactions m).
Proof.
  intros Hm Hid. simpl.
  pose proof (addReaction_ok userId s1 t1 messageId e m w Hm Hid) as H1.
  set (w1 := addReaction no_faults userId s1 t1 messageId e w) in *.
  set (m1 := set_reactions m (toggle_reaction userId e t1 (reactions m))) in *.
  assert (Hm1 : messages w1 !! messageId = Some m1) by (rewrite H1; apply lookup_insert_eq).
  rewrite (addReaction_ok userId s2 t2 messageId e m1 w1 Hm1 Hid), lookup_insert_eq.
  eexists. split; [done|]. simpl. split; [apply toggle_twice_keys|]. split; [done|].
  intros Hnot. apply toggle_twice_absent. by apply existing_reaction_keys.
Qed.

Lemma addReaction_twice_witness :
  let d := mkMessageData "b" (Some "hi") "c" None in
  let m := new_message empty_world "a" 5 d in
  let w := sendMessage no_faults "a" "s1" 5 d empty_world in
  let w' := addReaction no_faults "b" "s2" 9 0 "+1" (addReaction no_faults "b" "s2" 8 0 "+1" w) in
  ∃ m', messages w' !! 0 = Some m'
        ∧ reaction_keys (reactions m') = reaction_keys (reactions m)
        ∧ m' = set_reactions m (reactions m')
        ∧ (("b", "+1") ∉ reaction_keys (reactions m) → reactions m' = reactions m).
Proof.
  apply (addReaction_twice "b" "s2" "s2" 8 9 0 "+1"
           (new_message empty_world "a" 5 (mkMessageData "b" (Some "hi") "c" None))
           (sendMessage no_faults "a" "s1" 5 (mkMessageData "b" (Some "hi") "c" None)
              empty_world));
    reflexivity.
Defined.

(** A pair with a reaction: after two toggles the reaction is a new one, at
    the end of the sequence, with the time of the second toggle. *)
Example toggle_twice_restamps :
  toggle_reaction "b" "+1" 9
    (toggle_reaction "b" "+1" 8 [mkReaction "b" "+1" 1; mkReaction "a" "+1" 2])
  = [mkReaction "a" "+1" 2; mkReaction "b" "+1" 9].
Proof. reflexivity. Qed.

(** *** Unread counters *)

Lemma well_keyed_empty : well_keyed empty_world.
Proof. split; apply map_Forall_empty. Qed.

Lemma counters_exact_empty : counters_exact empty_world.
Proof.
  intros c p. unfold unread_counter, unread_messages. simpl.
  by rewrite lookup_empty, map_filter_empty, map_size_empty.
Qed.

Lemma unread_size_insert (c p : string) (k : nat) (m : Message) (msgs : gmap nat Message) :
  msgs !! k = None →
  size (filter (λ km : nat * Message, unread_for c p km.2) (<[k := m]> msgs))
  = size (filter (λ km : nat * Message, unread_for c p km.2) msgs)
    + (if decide (unread_for c p m) then 1 else 0).
Proof.
  intros Hk. rewrite map_filter_insert. simpl.
  destruct (decide (unread_for c p m)).
  - rewrite map_size_insert_None; [lia|].
    apply map_lookup_filter_None. by left.
  - rewrite delete_id by done. lia.
Qed.

Lemma unread_size_fmap (c p : string) (f : Message → Message) (msgs : gmap nat Message) :
  size (filter (λ km : nat * Message, unread_for c p km.2) (f <$> msgs))
  = size (filter (λ km : nat * Message, unread_for c p (f km.2)) msgs).
Proof.
  rewrite map_filter_fmap, map_size_fmap. f_equal.
Qed.

Lemma sendMessage_well_keyed (userId socketId : string) (now : nat) (d : MessageData)
    (w : World) :
  well_keyed w → well_keyed (sendMessage no_faults userId socketId now d w).
Proof.
  intros [Hc Hm].
  destruct (sendMessage_ok userId socketId now d w) as (Hms & Hcs & _).
  simpl in Hms, Hcs. split.
  - rewrite Hcs. destruct (conversations w !! msg_conversationId d) as [c|] eqn:Hfind;
      by apply map_Forall_insert_2.
  - rewrite Hms. by apply map_Forall_insert_2.
Qed.

Lemma sendMessage_counters_exact (userId socketId : string) (now : nat) (d : MessageData)
    (w : World) :
  well_keyed w → counters_exact w →
  counters_exact (sendMessage no_faults userId socketId now d w).
Proof.
  intros [Hkey _] Hex c p.
  destruct (sendMessage_ok userId socketId now d w) as (Hms & Hcs & _).
  simpl in Hms, Hcs. specialize (Hex c p).
  unfold unread_counter, unread_messages in *. rewrite Hms, Hcs.
  rewrite unread_size_insert by apply new_id_fresh. rewrite <- Hex. clear Hex Hms Hcs.
  destruct (conversations w !! msg_conversationId d) as [conv|] eqn:Hfind.
  - rewrite (Hkey _ _ Hfind).
    destruct (decide (msg_conversationId d = c)) as [<-|Hc].
    + rewrite lookup_insert_eq, Hfind. unfold unread_or_zero. simpl.
      destruct (decide (recipientId d = p)) as [<-|Hp].
      * rewrite lookup_insert_eq. simpl.
        rewrite decide_True by done. done.
      * rewrite lookup_insert_ne by done.
        rewrite decide_False; [lia|]. by intros (_ & ? & _).
    + rewrite lookup_insert_ne by done.
      rewrite decide_False; [lia|]. by intros (? & _).
  - destruct (decide (msg_conversationId d = c)) as [<-|Hc].
    + rewrite lookup_insert_eq, Hfind. unfold unread_or_zero. simpl.
      destruct (decide (recipientId d = p)) as [<-|Hp].
      * rewrite lookup_singleton_eq. simpl. rewrite decide_True by done. done.
      * rewrite lookup_singleton_ne by done. simpl.
        rewrite decide_False; [done|]. by intros (_ & ? & _).
    + rewrite lookup_insert_ne by done.
      rewrite decide_False; [lia|]. by intros (? & _).
Qed.

(** What markAsRead leaves in the two collections when no store call
    rejects. *)
Lemma markAsRead_ok (userId conversation : string) (messageIds : list nat) (w : World) :
  let w' := markAsRead no_faults userId conversation messageIds w in
  messages w' = (λ m, if bool_decide (_id m ∈ messageIds) then set_read m else m)
                  <$> messages w
  ∧ conversations w' =
      match conversations w !! conversation with
      | Some c => <[conv_id c := set_unread c userId 0]> (conversations w)
      | None => conversations w
      end.
Proof.
  unfold markAsRead, markAsRead_body. run_handler.
  by destruct (conversations w !! conversation).
Qed.

Lemma markAsRead_well_keyed (userId conversation : string) (messageIds : list nat)
    (w : World) :
  well_keyed w → well_keyed (markAsRead no_faults userId conversation messageIds w).
Proof.
  intros [Hc Hm].
  destruct (markAsRead_ok userId conversation messageIds w) as (Hms & Hcs).
  simpl in Hms, Hcs. split.
  - rewrite Hcs. destruct (conversations w !! conversation) as [c|] eqn:Hfind; [|done].
    by apply map_Forall_insert_2.
  - rewrite Hms. apply map_Forall_fmap. eapply map_Forall_impl; [exact Hm|].
    intros k m Hk. simpl. by destruct (bool_decide (_id m ∈ messageIds)).
Qed.

Lemma markAsRead_counters_exact (userId conversation : string) (messageIds : list nat)
    (w : World) :
  well_keyed w → counters_exact w →
  exact_receipt w userId conversation messageIds →
  counters_exact (markAsRead no_faults userId conversation messageIds w).
Proof.
  intros [Hkey _] Hex Hrec c p.
  destruct (markAsRead_ok userId conversation messageIds w) as (Hms & Hcs).
  simpl in Hms, Hcs. specialize (Hex c p).
  unfold unread_counter, unread_messages in *. rewrite Hms, Hcs.
  rewrite unread_size_fmap. clear Hms Hcs.
  destruct (decide (c = conversation ∧ p = userId)) as [[-> ->]|Hother].
  - (* the reader's own counter: zero, and nothing of theirs is unread *)
    transitivity 0.
    + destruct (conversations w !! conversation) as [conv|] eqn:Hfind.
      * rewrite (Hkey _ _ Hfind), lookup_insert_eq. unfold unread_or_zero. simpl.
        by rewrite lookup_insert_eq.
      * by rewrite Hfind.
    + symmetry. apply map_size_empty_iff, map_empty_filter.
      intros k m Hk [Hc [Hp Hr]]. simpl in *.
      case_bool_decide as Hin.
      * by simpl in Hr.
      * apply Hin. by apply (Hrec k m Hk Hr).
  - (* any other counter: untouched, and so are its unread messages *)
    transitivity (size (filter (λ km : nat * Message, unread_for c p km.2) (messages w))).
    + rewrite <- Hex. clear Hex.
      destruct (conversations w !! conversation) as [conv|] eqn:Hfind; [|done].
      rewrite (Hkey _ _ Hfind).
      destruct (decide (conversation = c)) as [<-|Hc].
      * rewrite lookup_insert_eq, Hfind. unfold unread_or_zero. simpl.
        rewrite lookup_insert_ne; [done|]. intros ->. by apply Hother.
      * by rewrite lookup_insert_ne.
    + symmetry. f_equal. apply map_filter_ext. intros k m Hk. simpl.
      case_bool_decide as Hin; [|done].
      split.
      * by intros (_ & _ & ?).
      * intros [Hc [Hp Hr]]. exfalso. apply Hother.
        destruct (proj1 (Hrec k m Hk Hr) Hin) as [? ?]. by subst.
Qed.

(** C1 (as the code has it): start from a store whose counters are exact
    (the empty store is one) and run any finite sequence of sendMessage and
    markAsRead events, every store call succeeding; if each read receipt
    names, among the messages unread at that moment, exactly those of its
    conversation addressed to the reader, then for every conversation and
    every user the stored counter (an absent entry read as 0) equals
    the number of stored messages of the conversation addressed to the user
    with [read = false]. *)
Theorem counters_exact_run (ops : list Op) (w : World) :
  well_keyed w →
  counters_exact w →
  exact_receipts w ops →
  counters_exact (foldl step w ops).
Proof.
  revert w. induction ops as [|op ops IH]; intros w Hkey Hex Hrec; [done|].
  destruct Hrec as [Hop Hrec]. simpl. apply IH; [| |done].
  - destruct op; simpl; [by apply sendMessage_well_keyed|by apply markAsRead_well_keyed].
  - destruct op; simpl;
      [by apply sendMessage_counters_exact|by apply markAsRead_counters_exact].
Qed.

Lemma counters_exact_run_witness :
  let d := mkMessageData "b" (Some "hi") "c" None in
  let ops := [Send "a" "s1" 5 d; Send "a" "s1" 6 d; MarkAsRead "b" "c" [0; 1];
              Send "b" "s2" 7 (mkMessageData "a" (Some "yo") "c" None)] in
  unread_counter (foldl step empty_world ops) "c" "b"
  = unread_messages (foldl step empty_world ops) "c" "b".
Proof.
  apply (counters_exact_run
           [Send "a" "s1" 5 (mkMessageData "b" (Some "hi") "c" None);
            Send "a" "s1" 6 (mkMessageData "b" (Some "hi") "c" None);
            MarkAsRead "b" "c" [0; 1];
            Send "b" "s2" 7 (mkMessageData "a" (Some "yo") "c" None)]
           empty_world).
  - apply well_keyed_empty.
  - apply counters_exact_empty.
  - cbn [exact_receipts]. split; [exact I|]. split; [exact I|]. split; [|done].
    apply (bool_decide_unpack (exact_receipt _ _ _ _)). vm_compute. exact I.
Defined.

(** C1 fails as stated: "a" sends two messages to "b" in conversation "c",
    then "b" acknowledges the first one only.  The counter of "b" is reset
    to 0 while one message addressed to "b" is still unread. *)
Lemma markAsRead_resets_past_unread :
  let d := mkMessageData "b" (Some "hi") "c" None in
  let w := foldl step empty_world
             [Send "a" "s1" 5 d; Send "a" "s1" 6 d; MarkAsRead "b" "c" [0]] in
  unread_counter w "c" "b" = 0 ∧ unread_messages w "c" "b" = 1.
Proof. vm_compute. done. Qed.

(** *** History *)

Lemma read_selector (conversation userId : string) (m : Message) :
  bool_decide (conversationId m = conversation) && bool_decide (recipient m = userId)
    && bool_decide (read m = false)
  = bool_decide (unread_for conversation userId m).
Proof.
  rewrite <- !bool_decide_and. apply bool_decide_ext. unfold unread_for. tauto.
Qed.

Lemma find_page_stored (conversation : string) (skip limit : Z) (w w' : World)
    (ms : list Message) :
  find_page conversation skip limit w = Some (w', ms) →
  w' = w
  ∧ Forall (λ m, conversationId m = conversation ∧ ∃ k, messages w !! k = Some m) ms.
Proof.
  unfold find_page. case_bool_decide; [done|]. intros [= <- <-]. split; [done|].
  apply Forall_forall. intros m Hm.
  apply subseteq_take, subseteq_drop in Hm. rewrite merge_sort_Permutation in Hm.
  apply list_elem_of_filter in Hm as [Hc Hm]. split; [done|].
  apply list_elem_of_fmap in Hm as ([k m'] & -> & Hm). exists k.
  by apply elem_of_map_to_list.
Qed.

(** C9: a getMessages request that is answered with 200 returns a page of
    stored messages of the conversation and, whatever the page holds, sets
    [read = true] on every stored message of the conversation that is
    addressed to the requester and was unread, leaves every other message
    as it was, and stores 0 as the requester's unread counter. *)
Theorem getMessages_marks_read (faults : Faults) (userId conversation : string)
    (page limit : option Z) (w : World) :
  well_keyed w →
  status (getMessages faults userId conversation page limit w).2 = 200 →
  let w' := (getMessages faults userId conversation page limit w).1 in
  (∀ k m, messages w !! k = Some m →
          messages w' !! k
          = Some (if decide (unread_for conversation userId m) then set_read m else m))
  ∧ (∀ k, messages w !! k = None → messages w' !! k = None)
  ∧ unread_messages w' conversation userId = 0
  ∧ (∃ c, conversations w' !! conversation = Some c ∧ unreadCount c !! userId = Some 0)
  ∧ unread_counter w' conversation userId = 0
  ∧ ∃ ms, body (getMessages faults userId conversation page limit w).2 = success_messages ms
          ∧ Forall (λ m, conversationId m = conversation ∧ ∃ k, messages w !! k = Some m) ms.
Proof.
  intros [Hkey _]. unfold getMessages, getMessages_body. run_handler.
  destruct (faults ConversationFindById); simpl; [done|].
  destruct (conversations w !! conversation) as [c|] eqn:Hfind; simpl; [|done].
  destruct (bool_decide (userId ∈ participants c)); simpl; [|done].
  destruct (faults MessageFind); simpl; [done|].
  destruct (find_page conversation _ _ w) as [[w1 ms]|] eqn:Hpage; simpl; [|done].
  apply find_page_stored in Hpage as [-> Hms].
  destruct (faults MessageUpdateMany); simpl; [done|].
  destruct (faults ConversationSave); simpl; [done|].
  intros _.
  assert (Hlook : ∀ k m, messages w !! k = Some m →
            ((λ m0, if bool_decide (conversationId m0 = conversation)
                         && bool_decide (recipient m0 = userId)
                         && bool_decide (read m0 = false)
                    then set_read m0 else m0) <$> messages w) !! k
            = Some (if decide (unread_for conversation userId m) then set_read m else m)).
  { intros k m Hk. rewrite lookup_fmap, Hk. simpl. rewrite read_selector.
    by destruct (decide (unread_for conversation userId m));
      [rewrite bool_decide_eq_true_2|rewrite bool_decide_eq_false_2]. }
  split; [exact Hlook|].
  split; [intros k Hk; by rewrite lookup_fmap, Hk|].
  split.
  { unfold unread_messages. simpl. rewrite unread_size_fmap.
    apply map_size_empty_iff, map_empty_filter. intros k m Hk. simpl.
    rewrite read_selector. case_bool_decide as Hu; [by intros (_ & _ & ?)|done]. }
  rewrite (Hkey _ _ Hfind).
  split; [|split].
  - eexists. rewrite lookup_insert_eq. split; [done|]. simpl. apply lookup_insert_eq.
  - unfold unread_counter. simpl. rewrite lookup_insert_eq. unfold unread_or_zero. simpl.
    by rewrite lookup_insert_eq.
  - eexists. split; [done|]. by apply Forall_reverse.
Qed.

Lemma getMessages_marks_read_witness :
  let d := mkMessageData "b" (Some "hi") "c" None in
  let w := foldl step empty_world [Send "a" "s1" 5 d; Send "a" "s1" 6 d] in
  let r := getMessages no_faults "b" "c" (Some 1%Z) (Some 1%Z) w in
  (∀ k m, messages w !! k = Some m →
          messages r.1 !! k = Some (if decide (unread_for "c" "b" m) then set_read m else m))
  ∧ (∀ k, messages w !! k = None → messages r.1 !! k = None)
  ∧ unread_messages r.1 "c" "b" = 0
  ∧ (∃ c, conversations r.1 !! "c" = Some c ∧ unreadCount c !! "b" = Some 0)
  ∧ unread_counter r.1 "c" "b" = 0
  ∧ ∃ ms, body r.2 = success_messages ms
          ∧ Forall (λ m, conversationId m = "c" ∧ ∃ k, messages w !! k = Some m) ms.
Proof.
  apply (getMessages_marks_read no_faults "b" "c" (Some 1%Z) (Some 1%Z)
           (foldl step empty_world
              [Send "a" "s1" 5 (mkMessageData "b" (Some "hi") "c" None);
               Send "a" "s1" 6 (mkMessageData "b" (Some "hi") "c" None)])).
  - apply sendMessage_well_keyed, sendMessage_well_keyed, well_keyed_empty.
  - vm_compute. reflexivity.
Defined.

(** *** White space *)

(** [trim] strips the no-break space (U+00A0), the ideographic space
    (U+3000), the byte order mark (U+FEFF) and the line separator (U+2028)
    like the ASCII white space, at both ends and not inside the text:
    of U+00A0, space, "h", U+00A0, "i", U+3000, U+FEFF, U+2028 and a line
    feed it keeps "h", U+00A0, "i". *)
Example trim_unicode_white_space :
  trim (bytes [194; 160; 32; 104; 194; 160; 105; 227; 128; 128; 239; 187; 191;
               226; 128; 168; 10])
  = bytes [104; 194; 160; 105].
Proof. vm_compute. reflexivity. Qed.

(** A no-break space alone is blank content: addMessage answers 400 to it
    and the controller's editMessage does too, before it looks the message
    up. *)
Example no_break_space_is_blank :
  blank (Some (bytes [194; 160])) = true
  ∧ status (addMessage no_faults "a" 5
              (mkAddMessageBody "c" (Some (bytes [194; 160])) None) empty_world).2 = 400
  ∧ status (Controller.editMessage no_faults "a" 5 0 (Some (bytes [194; 160]))
              empty_world).2 = 400.
Proof. vm_compute. done. Qed.

(** The controller's editMessage stores "hi" for "hi" followed by a
    no-break space. *)
Example editMessage_trims_no_break_space :
  let w := sendMessage no_faults "a" "s1" 5 (mkMessageData "b" (Some "yo") "c" None)
             empty_world in
  content <$> messages (Controller.editMessage no_faults "a" 7 0
                          (Some (bytes [104; 105; 194; 160])) w).1 !! 0
  = Some (Some "hi").
Proof. vm_compute. reflexivity. Qed.

(** *** The controller's checks, and what the socket handlers do check *)

(** X1: addMessage answers 400 exactly when the content is absent, empty or
    white space only and there is no image, and then it stores nothing. *)
Theorem addMessage_validation (faults : Faults) (userId : string) (now : nat)
    (b : AddMessageBody) (w : World) :
  let r := addMessage faults userId now b w in
  (status r.2 = 400 ↔ blank (body_content b) = true ∧ body_image b = None)
  ∧ (status r.2 = 400 →
     r = (w, mkResponse 400 (failure "Message must have text or an image"))).
Proof.
  unfold addMessage, addMessage_body. run_handler.
  destruct (blank (body_content b)) eqn:Hb, (body_image b) as [img|] eqn:Hi; simpl.
  2: by repeat split.
  all: destruct (faults ConversationFindById); simpl; [passes_validation|].
  all: destruct (conversations w !! body_conversationId b) as [c|]; simpl;
    [|passes_validation].
  all: destruct (bool_decide (userId ∈ participants c)); simpl; [|passes_validation].
  all: destruct (faults MessageCreate); simpl; [passes_validation|].
  all: destruct (create_message _ _ _ _ _ _ w) as [[w1 m]|]; simpl; [|passes_validation].
  all: destruct (faults ConversationSave); simpl; [passes_validation|].
  all: destruct (faults MessagePopulate); simpl; passes_validation.
Qed.

(** X2: the controller's editMessage refuses blank content (400), an unknown
    message (404) and a caller who is not the sender (403), in this order,
    and leaves the store as it was in each case. *)
Theorem rest_editMessage_refusals (faults : Faults) (userId : string) (now : nat)
    (messageId : nat) (newContent : option string) (w : World) :
  let r := Controller.editMessage faults userId now messageId newContent w in
  (blank newContent = true →
   r = (w, mkResponse 400 (failure "Message content cannot be empty")))
  ∧ (blank newContent = false → faults MessageFindById = false →
     messages w !! messageId = None →
     r = (w, mkResponse 404 (failure "Message not found")))
  ∧ (∀ m, blank newContent = false → faults MessageFindById = false →
          messages w !! messageId = Some m → sender m ≠ userId →
          r = (w, mkResponse 403 (failure "You can only edit your own messages"))).
Proof.
  unfold Controller.editMessage, Controller.editMessage_body. run_handler.
  split; [by intros ->|]. split.
  - by intros -> -> ->.
  - intros m -> -> -> Hs. simpl. by rewrite bool_decide_eq_true_2.
Qed.

(** X3: the socket editMessage and deleteMessage handlers refuse an unknown
    message and a caller who is not the sender: the only effect is the
    error event on the caller's own socket. *)
Theorem socket_edit_delete_refusals (faults : Faults) (userId socketId : string)
    (now : nat) (messageId : nat) (newContent : option string) (w : World) :
  faults MessageFindById = false →
  (messages w !! messageId = None →
   Socket.editMessage faults userId socketId now messageId newContent w
   = emit_to (SocketEmit socketId) (editError "Message not found") w
   ∧ Socket.deleteMessage faults userId socketId messageId w
     = emit_to (SocketEmit socketId) (deleteError "Message not found") w)
  ∧ (∀ m, messages w !! messageId = Some m → sender m ≠ userId →
          Socket.editMessage faults userId socketId now messageId newContent w
          = emit_to (SocketEmit socketId) (editError "You can only edit your own messages") w
          ∧ Socket.deleteMessage faults userId socketId messageId w
            = emit_to (SocketEmit socketId)
                (deleteError "You can only delete your own messages") w).
Proof.
  intros Hf.
  unfold Socket.editMessage, Socket.editMessage_body,
    Socket.deleteMessage, Socket.deleteMessage_body.
  run_handler. rewrite Hf. split.
  - by intros ->.
  - intros m -> Hs. simpl. by rewrite bool_decide_eq_true_2.
Qed.

Lemma socket_edit_delete_refusals_witness :
  let d := mkMessageData "b" (Some "hi") "c" None in
  let w := sendMessage no_faults "a" "s1" 5 d empty_world in
  (messages w !! 0 = None →
   Socket.editMessage no_faults "b" "s2" 7 0 (Some "mine") w
   = emit_to (SocketEmit "s2") (editError "Message not found") w
   ∧ Socket.deleteMessage no_faults "b" "s2" 0 w
     = emit_to (SocketEmit "s2") (deleteError "Message not found") w)
  ∧ (∀ m, messages w !! 0 = Some m → sender m ≠ "b" →
          Socket.editMessage no_faults "b" "s2" 7 0 (Some "mine") w
          = emit_to (SocketEmit "s2") (editError "You can only edit your own messages") w
          ∧ Socket.deleteMessage no_faults "b" "s2" 0 w
            = emit_to (SocketEmit "s2")
                (deleteError "You can only delete your own messages") w).
Proof.
  apply (socket_edit_delete_refusals no_faults "b" "s2" 7 0 (Some "mine")
           (sendMessage no_faults "a" "s1" 5 (mkMessageData "b" (Some "hi") "c" None)
              empty_world)).
  reflexivity.
Defined.

(** X4: a conversation that findOrCreateConversation creates (answer 201) is
    stored with both participants in its unread-count map, each at 0. *)
Theorem findOrCreateConversation_creates_both (faults : Faults)
    (userId recipientId drawn_id : string) (w : World) :
  status (findOrCreateConversation faults userId recipientId drawn_id w).2 = 201 →
  ∃ c, conversations (findOrCreateConversation faults userId recipientId drawn_id w).1
         !! drawn_id = Some c
       ∧ body (findOrCreateConversation faults userId recipientId drawn_id w).2
         = success_conversation c
       ∧ participants c = [userId; recipientId]
       ∧ lastMessage c = None
       ∧ unreadCount c !! userId = Some 0
       ∧ unreadCount c !! recipientId = Some 0.
Proof.
  unfold findOrCreateConversation, findOrCreateConversation_body, find_conversation_of,
    create_conversation.
  run_handler.
  destruct (faults UserFindById); simpl; [done|].
  destruct (bool_decide (recipientId ∈ users w)); simpl; [|done].
  destruct (faults ConversationFindOne); simpl; [done|].
  destruct (List.find _ _); simpl; [done|].
  destruct (faults ConversationCreate); simpl; [done|].
  destruct (conversations w !! drawn_id); simpl; [done|].
  destruct (faults ConversationPopulate); simpl; [done|].
  intros _. eexists. rewrite lookup_insert_eq. split; [done|]. simpl.
  repeat split; [apply lookup_insert_eq|].
  destruct (decide (userId = recipientId)) as [->|Hne];
    [apply lookup_insert_eq|].
  rewrite lookup_insert_ne by done. apply lookup_insert_eq.
Qed.

Lemma findOrCreateConversation_creates_both_witness :
  let w := mkWorld ∅ ∅ {["a"; "b"]} ∅ ∅ [] in
  ∃ c, conversations (findOrCreateConversation no_faults "a" "b" "c" w).1 !! "c" = Some c
       ∧ body (findOrCreateConversation no_faults "a" "b" "c" w).2 = success_conversation c
       ∧ participants c = ["a"; "b"]
       ∧ lastMessage c = None
       ∧ unreadCount c !! "a" = Some 0
       ∧ unreadCount c !! "b" = Some 0.
Proof.
  apply (findOrCreateConversation_creates_both no_faults "a" "b" "c"
           (mkWorld ∅ ∅ {["a"; "b"]} ∅ ∅ [])).
  vm_compute. reflexivity.
Defined.

(** X5: a sendMessage into a stored conversation sets [lastMessage] to the new
    message and adds one to the recipient's counter; the participants and
    every other counter stay as they were. *)
Theorem sendMessage_increments (userId socketId : string) (now : nat) (d : MessageData)
    (c : Conversation) (w : World) :
  well_keyed w →
  conversations w !! msg_conversationId d = Some c →
  ∃ c', conversations (sendMessage no_faults userId socketId now d w)
          !! msg_conversationId d = Some c'
        ∧ lastMessage c' = Some (new_id w)
        ∧ participants c' = participants c
        ∧ unread_or_zero c' (recipientId d) = unread_or_zero c (recipientId d) + 1
        ∧ ∀ p, p ≠ recipientId d → unreadCount c' !! p = unreadCount c !! p.
Proof.
  intros [Hkey _] Hc.
  destruct (sendMessage_ok userId socketId now d w) as (_ & Hcs & _).
  simpl in Hcs. rewrite Hc in Hcs. rewrite Hcs, (Hkey _ _ Hc), lookup_insert_eq.
  eexists. split; [done|]. simpl. repeat split.
  - unfold unread_or_zero at 1. simpl. by rewrite lookup_insert_eq.
  - intros p Hp. by rewrite lookup_insert_ne.
Qed.

Lemma sendMessage_increments_witness :
  let d := mkMessageData "b" (Some "hi") "c" None in
  let c := mkConversation "c" ["a"; "b"] (Some 0) {[ "b" := 1 ]} in
  let w := sendMessage no_faults "a" "s1" 5 d empty_world in
  ∃ c', conversations (sendMessage no_faults "a" "s1" 6 d w) !! "c" = Some c'
        ∧ lastMessage c' = Some (new_id w)
        ∧ participants c' = participants c
        ∧ unread_or_zero c' "b" = unread_or_zero c "b" + 1
        ∧ ∀ p, p ≠ "b" → unreadCount c' !! p = unreadCount c !! p.
Proof.
  apply (sendMessage_increments "a" "s1" 6 (mkMessageData "b" (Some "hi") "c" None)
           (mkConversation "c" ["a"; "b"] (Some 0) {[ "b" := 1 ]})
           (sendMessage no_faults "a" "s1" 5 (mkMessageData "b" (Some "hi") "c" None)
              empty_world)).
  - apply sendMessage_well_keyed, well_keyed_empty.
  - vm_compute. reflexivity.
Defined.

(** *** What a request can do to the collections *)

Ltac run_all :=
  unfold sendMessage, sendMessage_body, markAsRead, markAsRead_body,
    addReaction, addReaction_body, Socket.editMessage, Socket.editMessage_body,
    Socket.deleteMessage, Socket.deleteMessage_body, connection, disconnect, typing,
    Controller.getMessages, Controller.getMessages_body,
    Controller.findOrCreateConversation, Controller.findOrCreateConversation_body,
    Controller.addMessage, Controller.addMessage_body,
    Controller.editMessage, Controller.editMessage_body,
    Controller.deleteMessage, Controller.deleteMessage_body,
    Controller.deleteConversation, Controller.deleteConversation_body,
    getConversationById, getConversationById_body,
    find_conversation_of, create_conversation, create_message, find_page,
    delete_messages_of, delete_conversation, find_populated,
    try_catch, respond, respond_with, hbind, await, await_more, await_checked, emit, hret,
    find_message, find_conversation, save_message, save_conversation,
    update_many_read, populate;
  simpl.

Lemma handle_messages_step (faults : Faults) (more : MoreFaults) (r : Request) (w : World) :
  removes_messages r = false →
  messages_step (messages w) (messages (handle faults more r w)).
Proof.
  destruct r; simpl; try done; intros _; run_all;
    repeat (case_match; simpl; simplify_eq);
    try apply step_same; try apply step_read.
  all: try (by match goal with
            | H : _ !! _ = Some ?m |- messages_step _ (<[_ := ?m']> _) =>
                eapply (step_save _ _ m m'); [exact H|constructor]
            end).
  all: unfold with_messages; simpl.
  all: match goal with
       | |- messages_step _ (<[_ := ?m]> _) =>
           apply (step_new _ m); simpl; first [apply new_id_fresh|done]
       end.
Qed.

Lemma deleteConversation_messages (faults : Faults) (more : MoreFaults)
    (userId conversation : string) (w : World) :
  messages (Controller.deleteConversation faults more userId conversation w).1 = messages w
  ∨ messages (Controller.deleteConversation faults more userId conversation w).1
    = filter (λ km, conversationId km.2 ≠ conversation) (messages w).
Proof. run_all. repeat (case_match; simpl; simplify_eq); auto. Qed.

Lemma handle_conversations_keyed (faults : Faults) (more : MoreFaults) (r : Request)
    (w : World) :
  map_Forall (λ k c, conv_id c = k) (conversations w) →
  map_Forall (λ k c, conv_id c = k) (conversations (handle faults more r w)).
Proof.
  intros Hkey. destruct r; simpl; run_all;
    repeat (case_match; simpl; simplify_eq); try done;
    first [by apply map_Forall_insert_2|by apply map_Forall_delete].
Qed.

Lemma filter_keeps (P : nat → Message → Prop) (conversation : string)
    (ms : gmap nat Message) :
  map_Forall P ms →
  map_Forall P (filter (λ km, conversationId km.2 ≠ conversation) ms).
Proof.
  intros HP k m Hk. apply map_lookup_filter_Some in Hk as [Hk _]. by apply HP.
Qed.

(** An invariant of the stored messages that does not look at the key: it
    holds after a request if it holds of a new message, survives every
    change a request can make, and survives the read mark. *)
Lemma handle_message_invariant (Q : Message → Prop) (faults : Faults) (more : MoreFaults)
    (r : Request) (w : World) :
  (∀ m, file m = None → reactions m = [] → read m = false → Q m) →
  (∀ m m', evolves m m' → Q m → Q m') →
  (∀ m, Q m → Q (set_read m)) →
  map_Forall (λ _, Q) (messages w) →
  map_Forall (λ _, Q) (messages (handle faults more r w)).
Proof.
  intros Hnew Hev Hread HQ.
  destruct (removes_messages r) eqn:Hr.
  - destruct r; try done. simpl.
    destruct (deleteConversation_messages faults more userId conversation w) as [->| ->];
      [done|by apply filter_keeps].
  - destruct (handle_messages_step faults more r w Hr)
      as [|m Hfresh Hf Hrs Hrd|k m m' Hk Hevolves|sel]; [done| | |].
    + apply map_Forall_insert_2; [by apply Hnew|done].
    + apply map_Forall_insert_2; [|done]. apply (Hev m m' Hevolves). by apply (HQ k).
    + apply map_Forall_fmap. eapply map_Forall_impl; [exact HQ|].
      intros k m Hm. simpl. destruct (sel m); [by apply Hread|done].
Qed.

Lemma handle_well_keyed (faults : Faults) (more : MoreFaults) (r : Request) (w : World) :
  well_keyed w → well_keyed (handle faults more r w).
Proof.
  intros [Hc Hm]. split; [by apply handle_conversations_keyed|].
  destruct (removes_messages r) eqn:Hr.
  - destruct r; try done. simpl.
    destruct (deleteConversation_messages faults more userId conversation w) as [->| ->];
      [done|by apply filter_keeps].
  - destruct (handle_messages_step faults more r w Hr)
      as [|m Hfresh Hf Hrs Hrd|k m m' Hk Hevolves|sel]; [done| | |].
    + by apply map_Forall_insert_2.
    + by apply map_Forall_insert_2.
    + apply map_Forall_fmap. eapply map_Forall_impl; [exact Hm|].
      intros k m Hk. simpl. by destruct (sel m).
Qed.

Lemma evolves_linkage (m m' : Message) :
  evolves m m' →
  _id m' = _id m ∧ sender m' = sender m ∧ recipient m' = recipient m
  ∧ conversationId m' = conversationId m ∧ createdAt m' = createdAt m
  ∧ read m' = read m
  ∧ (deleted m = true → deleted m' = true)
  ∧ (file m = None → file m' = None).
Proof. by destruct 1. Qed.

Section reaction_keys.
Variables (userId e : string).

Lemma toggle_keeps_unique (now : nat) (rs : list Reaction) :
  NoDup ((λ r, (user r, emoji r)) <$> rs) →
  NoDup ((λ r, (user r, emoji r)) <$> toggle_reaction userId e now rs).
Proof.
  intros Hdup. unfold toggle_reaction.
  destruct (existing_reaction userId e rs) as [r|] eqn:Hfind.
  - eapply sublist_NoDup; [exact Hdup|]. apply fmap_sublist, sublist_filter.
  - rewrite fmap_app. apply NoDup_app. split; [done|]. split; [|apply NoDup_singleton].
    intros k Hk Hin. apply list_elem_of_singleton in Hin as ->.
    apply list_elem_of_fmap in Hk as (r & Hr & Hin). simpl in Hr.
    apply existing_reaction_None in Hfind.
    apply (proj1 (Forall_forall _ _) Hfind r Hin). by injection Hr as -> ->.
Qed.

(** One toggle flips the caller's pair and leaves every other pair alone. *)
Lemma toggle_flips (now : nat) (rs : list Reaction) (k : string * string) :
  k ∈ reaction_keys (toggle_reaction userId e now rs)
  ↔ if decide (k = (userId, e)) then k ∉ reaction_keys rs else k ∈ reaction_keys rs.
Proof.
  unfold reaction_keys, toggle_reaction.
  destruct (decide (k = (userId, e))) as [->|Hk]; rewrite !elem_of_list_to_set;
    destruct (existing_reaction userId e rs) as [r|] eqn:Hfind.
  - apply find_some in Hfind as [Hin Hr]. apply bool_decide_eq_true_1 in Hr.
    destruct Hr as [Hu He]. apply list_elem_of_In in Hin. split.
    + intros Hk. apply list_elem_of_fmap in Hk as (x & Hx & Hxin).
      apply list_elem_of_filter in Hxin as [Hno _]. exfalso. apply Hno.
      by injection Hx as -> ->.
    + intros Hno. exfalso. apply Hno. apply list_elem_of_fmap. exists r.
      by rewrite Hu, He.
  - apply existing_reaction_None in Hfind. rewrite fmap_app, elem_of_app. simpl.
    rewrite list_elem_of_singleton. split; [|by right]. intros _ Hin.
    apply list_elem_of_fmap in Hin as (x & Hx & Hxin).
    apply (proj1 (Forall_forall _ _) Hfind x Hxin). by injection Hx as -> ->.
  - rewrite !list_elem_of_fmap. split.
    + intros (x & -> & Hx). apply list_elem_of_filter in Hx as [_ Hx]. eauto.
    + intros (x & -> & Hx). exists x. split; [done|]. apply list_elem_of_filter.
      split; [|done]. intros [Hxu Hxe]. apply Hk. by rewrite Hxu, Hxe.
  - rewrite fmap_app, elem_of_app. simpl. rewrite list_elem_of_singleton.
    split; [by intros [?|?]|by left].
Qed.
End reaction_keys.

(** *** Invariants of the store *)

(** X7: no event or request, whichever store calls reject, gives a stored
    message two reactions of one user with one emoji. *)
Theorem run_keeps_reactions_unique (rs : list (Faults * MoreFaults * Request)) (w : World) :
  reactions_unique w → reactions_unique (run w rs).
Proof.
  revert w. induction rs as [|[[faults more] r] rs IH]; intros w Hw; [done|].
  simpl. apply IH. apply handle_message_invariant; [| | |done].
  - intros m _ -> _. apply NoDup_nil_2.
  - intros m m' Hev Hm. destruct Hev; simpl; [by apply toggle_keeps_unique|done..].
  - done.
Qed.

Lemma run_keeps_reactions_unique_witness :
  reactions_unique
    (run empty_world
       [(no_faults, no_more_faults,
         SendMessage "a" "s1" 5 (mkMessageData "b" (Some "hi") "c" None));
        (no_faults, no_more_faults, React "b" "s2" 6 0 "+1");
        (no_faults, no_more_faults, React "a" "s1" 7 0 "+1");
        (no_faults, no_more_faults, React "b" "s2" 8 0 "+1")]).
Proof. apply run_keeps_reactions_unique. apply map_Forall_empty. Defined.

Lemma run_keeps_no_files (rs : list (Faults * MoreFaults * Request)) (w : World) :
  no_files w → no_files (run w rs).
Proof.
  revert w. induction rs as [|[[faults more] r] rs IH]; intros w Hw; [done|].
  simpl. apply IH. apply handle_message_invariant; [| | |done].
  - by intros m ? _ _.
  - intros m m' Hev Hm. by apply (evolves_linkage m m' Hev).
  - done.
Qed.



(** X8: no event or request ever attaches a file to a message, so in a
    store reached from one without files the controller's deleteMessage,
    when it goes through, leaves a record without image and without file. *)
Theorem rest_delete_clears_attachments (rs : list (Faults * MoreFaults * Request))
    (faults : Faults) (userId : string) (messageId : nat) (w : World) :
  no_files w →
  status (Controller.deleteMessage faults userId messageId (run w rs)).2 = 200 →
  ∃ m m', messages (run w rs) !! messageId = Some m
          ∧ messages (Controller.deleteMessage faults userId messageId (run w rs)).1 !! _id m
            = Some m'
          ∧ deleted m' = true ∧ content m' = Some tombstone
          ∧ image m' = None ∧ file m' = None.
Proof.
  intros Hfiles. apply (run_keeps_no_files rs) in Hfiles. revert Hfiles.
  generalize (run w rs). clear w. intros w Hfiles. run_all.
  destruct (faults MessageFindById); simpl; [done|].
  destruct (messages w !! messageId) as [m|] eqn:Hm; simpl; [|done].
  destruct (bool_decide (sender m ≠ userId)); simpl; [done|].
  destruct (faults MessageSave); simpl; [done|]. intros _.
  exists m. eexists. split; [done|]. rewrite lookup_insert_eq. split; [done|].
  simpl. repeat split. by apply (Hfiles messageId).
Qed.

Lemma rest_delete_clears_attachments_witness :
  let rs := [(no_faults, no_more_faults,
              SendMessage "a" "s1" 5
                (mkMessageData "b" (Some "hi") "c" (Some (mkImage "p" "u" "s"))))] in
  ∃ m m', messages (run empty_world rs) !! 0 = Some m
          ∧ messages (Controller.deleteMessage no_faults "a" 0 (run empty_world rs)).1 !! _id m
            = Some m'
          ∧ deleted m' = true ∧ content m' = Some tombstone
          ∧ image m' = None ∧ file m' = None.
Proof.
  apply (rest_delete_clears_attachments
           [(no_faults, no_more_faults,
             SendMessage "a" "s1" 5
               (mkMessageData "b" (Some "hi") "c" (Some (mkImage "p" "u" "s"))))]
           no_faults "a" 0 empty_world).
  - apply map_Forall_empty.
  - vm_compute. reflexivity.
Defined.

(** X9: one addReaction on a stored message, the store calls succeeding,
    flips the caller's (user, emoji) pair (present becomes absent, absent
    becomes present) and leaves every other pair as it was. *)
Theorem addReaction_flips (userId socketId : string) (now : nat) (messageId : nat)
    (e : string) (m : Message) (w : World) :
  messages w !! messageId = Some m →
  _id m = messageId →
  ∃ m', messages (addReaction no_faults userId socketId now messageId e w) !! messageId
          = Some m'
        ∧ ∀ k, k ∈ reaction_keys (reactions m')
               ↔ if decide (k = (userId, e)) then k ∉ reaction_keys (reactions m)
                  else k ∈ reaction_keys (reactions m).
Proof.
  intros Hm Hid. rewrite (addReaction_ok userId socketId now messageId e m w Hm Hid).
  rewrite lookup_insert_eq. eexists. split; [done|]. intros k. simpl. apply toggle_flips.
Qed.

Lemma addReaction_flips_witness :
  let d := mkMessageData "b" (Some "hi") "c" None in
  let w := sendMessage no_faults "a" "s1" 5 d empty_world in
  ∃ m', messages (addReaction no_faults "b" "s2" 6 0 "+1" w) !! 0 = Some m'
        ∧ ∀ k, k ∈ reaction_keys (reactions m')
               ↔ if decide (k = ("b", "+1"))
                  then k ∉ reaction_keys (reactions (new_message empty_world "a" 5 d))
                  else k ∈ reaction_keys (reactions (new_message empty_world "a" 5 d)).
Proof.
  apply (addReaction_flips "b" "s2" 6 0 "+1"
           (new_message empty_world "a" 5 (mkMessageData "b" (Some "hi") "c" None))
           (sendMessage no_faults "a" "s1" 5 (mkMessageData "b" (Some "hi") "c" None)
              empty_world));
    reflexivity.
Defined.

(** X10: apart from deleteConversation, no event or request, whichever
    store calls reject, removes a message or changes who sent it, to whom,
    in which conversation and when; and it never sets [read] or [deleted]
    back to false. *)
Theorem messages_persist (faults : Faults) (more : MoreFaults) (r : Request) (w : World)
    (k : nat) (m : Message) :
  well_keyed w →
  removes_messages r = false →
  messages w !! k = Some m →
  ∃ m', messages (handle faults more r w) !! k = Some m'
        ∧ _id m' = _id m ∧ sender m' = sender m ∧ recipient m' = recipient m
        ∧ conversationId m' = conversationId m ∧ createdAt m' = createdAt m
        ∧ (read m = true → read m' = true)
        ∧ (deleted m = true → deleted m' = true).
Proof.
  intros [_ Hkey] Hr Hm.
  destruct (handle_messages_step faults more r w Hr)
    as [|m0 Hfresh _ _ _|k0 m0 m0' Hk0 Hev|sel].
  - exists m. by repeat split.
  - exists m. rewrite lookup_insert_ne by (intros <-; congruence). by repeat split.
  - destruct (evolves_linkage m0 m0' Hev) as (Hid & Hs & Hrc & Hc & Ht & Hrd & Hdel & _).
    destruct (decide (k = k0)) as [->|Hne].
    + assert (m0 = m) as -> by congruence.
      exists m0'. rewrite Hid, (Hkey _ _ Hm), lookup_insert_eq.
      repeat split; try done. by rewrite Hrd.
    + exists m. rewrite lookup_insert_ne by (rewrite Hid, (Hkey _ _ Hk0); congruence).
      by repeat split.
  - rewrite lookup_fmap, Hm. simpl. eexists. split; [done|].
    destruct (sel m); by repeat split.
Qed.

Lemma messages_persist_witness :
  let d := mkMessageData "b" (Some "hi") "c" None in
  let w := sendMessage no_faults "a" "s1" 5 d empty_world in
  let m := new_message empty_world "a" 5 d in
  ∃ m', messages (handle no_faults no_more_faults (SocketDelete "a" "s1" 0) w) !! 0 = Some m'
        ∧ _id m' = _id m ∧ sender m' = sender m ∧ recipient m' = recipient m
        ∧ conversationId m' = conversationId m ∧ createdAt m' = createdAt m
        ∧ (read m = true → read m' = true)
        ∧ (deleted m = true → deleted m' = true).
Proof.
  apply (messages_persist no_faults no_more_faults (SocketDelete "a" "s1" 0)
           (sendMessage no_faults "a" "s1" 5 (mkMessageData "b" (Some "hi") "c" None)
              empty_world)
           0 (new_message empty_world "a" 5 (mkMessageData "b" (Some "hi") "c" None))).
  - apply sendMessage_well_keyed, well_keyed_empty.
  - reflexivity.
  - vm_compute. reflexivity.
Defined.

(** *** Exact counters under all the requests *)

Lemma counters_exact_ext (w w' : World) :
  messages w' = messages w → conversations w' = conversations w →
  counters_exact w → counters_exact w'.
Proof.
  intros Hm Hc Hex c p. specialize (Hex c p).
  unfold unread_counter, unread_messages in *. by rewrite Hm, Hc.
Qed.

Lemma unread_size_save (c p : string) (k : nat) (m m' : Message) (ms : gmap nat Message) :
  ms !! k = Some m →
  (unread_for c p m' ↔ unread_for c p m) →
  size (filter (λ km : nat * Message, unread_for c p km.2) (<[k := m']> ms))
  = size (filter (λ km : nat * Message, unread_for c p km.2) ms).
Proof.
  intros Hk Hiff. rewrite map_filter_insert. simpl.
  destruct (decide (unread_for c p m')) as [Hu|Hu].
  - apply map_size_insert_Some. exists m. apply map_lookup_filter_Some. tauto.
  - f_equal. rewrite map_filter_delete. apply delete_id.
    apply map_lookup_filter_None. right. intros x Hx. simpl.
    assert (x = m) as -> by congruence. tauto.
Qed.

Lemma changes_one_message_effect (faults : Faults) (more : MoreFaults) (r : Request)
    (w : World) :
  changes_one_message r = true →
  conversations (handle faults more r w) = conversations w
  ∧ (messages (handle faults more r w) = messages w
     ∨ ∃ k m m', messages w !! k = Some m ∧ evolves m m'
                 ∧ messages (handle faults more r w) = <[_id m' := m']> (messages w)).
Proof.
  destruct r; simpl; try done; intros _; run_all;
    repeat (case_match; simpl; simplify_eq); (split; [done|]); auto.
  all: right.
  all: match goal with
       | H : messages _ !! ?k = Some ?m |- context [<[_ := ?m']> _] =>
           exists k, m, m'; split; [exact H|]; split; [constructor|done]
       end.
Qed.

Lemma counters_exact_one_message (faults : Faults) (more : MoreFaults) (r : Request)
    (w : World) :
  changes_one_message r = true →
  well_keyed w → counters_exact w → counters_exact (handle faults more r w).
Proof.
  intros Hr [_ Hkey] Hex.
  destruct (changes_one_message_effect faults more r w Hr) as [Hc [Hm|(k & m & m' & Hk & Hev & Hm)]].
  - by apply (counters_exact_ext w).
  - intros c p. specialize (Hex c p). unfold unread_counter, unread_messages in *.
    rewrite Hc, Hm, Hex.
    destruct (evolves_linkage m m' Hev) as (Hid & _ & Hrc & Hcv & _ & Hrd & _).
    rewrite Hid, (Hkey _ _ Hk). symmetry. apply (unread_size_save c p k m m'); [done|].
    unfold unread_for. by rewrite Hrc, Hcv, Hrd.
Qed.

(** Marking as read exactly the caller's unread messages of a conversation
    and storing 0 as the caller's counter keeps the counters exact. *)
Lemma counters_exact_receipt (w w' : World) (userId conversation : string)
    (sel : Message → bool) :
  well_keyed w → counters_exact w →
  (∀ k m, messages w !! k = Some m → read m = false →
          (sel m = true ↔ conversationId m = conversation ∧ recipient m = userId)) →
  messages w' = (λ m, if sel m then set_read m else m) <$> messages w →
  conversations w' =
    match conversations w !! conversation with
    | Some c => <[conv_id c := set_unread c userId 0]> (conversations w)
    | None => conversations w
    end →
  counters_exact w'.
Proof.
  intros [Hkey _] Hex Hrec Hms Hcs c p. specialize (Hex c p).
  unfold unread_counter, unread_messages in *. rewrite Hms, Hcs.
  rewrite unread_size_fmap. clear Hms Hcs.
  destruct (decide (c = conversation ∧ p = userId)) as [[-> ->]|Hother].
  - transitivity 0.
    + destruct (conversations w !! conversation) as [conv|] eqn:Hfind.
      * rewrite (Hkey _ _ Hfind), lookup_insert_eq. unfold unread_or_zero. simpl.
        by rewrite lookup_insert_eq.
      * by rewrite Hfind.
    + symmetry. apply map_size_empty_iff, map_empty_filter.
      intros k m Hk [Hc [Hp Hr]]. simpl in *.
      destruct (sel m) eqn:Hsel; [by simpl in Hr|].
      assert (sel m = true) by (by apply (Hrec k m Hk Hr)). congruence.
  - transitivity (size (filter (λ km : nat * Message, unread_for c p km.2) (messages w))).
    + rewrite <- Hex. clear Hex.
      destruct (conversations w !! conversation) as [conv|] eqn:Hfind; [|done].
      rewrite (Hkey _ _ Hfind).
      destruct (decide (conversation = c)) as [<-|Hc].
      * rewrite lookup_insert_eq, Hfind. unfold unread_or_zero. simpl.
        rewrite lookup_insert_ne; [done|]. intros ->. by apply Hother.
      * by rewrite lookup_insert_ne.
    + symmetry. f_equal. apply map_filter_ext. intros k m Hk. simpl.
      destruct (sel m) eqn:Hsel; [|done].
      split.
      * by intros (_ & _ & ?).
      * intros [Hc [Hp Hr]]. exfalso. apply Hother.
        destruct (proj1 (Hrec k m Hk Hr) Hsel) as [? ?]. by subst.
Qed.

Lemma getMessages_effect (faults : Faults) (userId conversation : string)
    (page limit : option Z) (w : World) :
  faults ConversationSave = false →
  let w' := (getMessages faults userId conversation page limit w).1 in
  (messages w' = messages w ∧ conversations w' = conversations w)
  ∨ (∃ c, conversations w !! conversation = Some c
          ∧ messages w' = (λ m, if bool_decide (unread_for conversation userId m)
                                then set_read m else m) <$> messages w
          ∧ conversations w' = <[conv_id c := set_unread c userId 0]> (conversations w)).
Proof.
  intros Hf. run_all.
  destruct (faults ConversationFindById); simpl; [by left|].
  destruct (conversations w !! conversation) as [c|] eqn:Hfind; simpl; [|by left].
  destruct (bool_decide (userId ∈ participants c)); simpl; [|by left].
  destruct (faults MessageFind); simpl; [by left|].
  case_bool_decide; simpl; [by left|].
  destruct (faults MessageUpdateMany); simpl; [by left|].
  rewrite Hf. simpl. right. exists c. split; [done|]. split; [|done].
  apply map_fmap_ext. intros k m _. by rewrite read_selector.
Qed.

(** X11: getMessages keeps the counters exact, whichever store calls reject
    during it, as long as the save of the conversation does not. *)
Theorem getMessages_keeps_counters (faults : Faults) (userId conversation : string)
    (page limit : option Z) (w : World) :
  faults ConversationSave = false →
  well_keyed w → counters_exact w →
  counters_exact (getMessages faults userId conversation page limit w).1.
Proof.
  intros Hf Hkey Hex.
  destruct (getMessages_effect faults userId conversation page limit w Hf)
    as [[Hm Hc]|(c & Hfind & Hm & Hc)].
  - by apply (counters_exact_ext w).
  - apply (counters_exact_receipt w _ userId conversation
             (λ m, bool_decide (unread_for conversation userId m))); try done.
    + intros k m Hk Hr. rewrite bool_decide_eq_true. unfold unread_for. tauto.
    + by rewrite Hfind.
Qed.

Lemma getMessages_keeps_counters_witness :
  let d := mkMessageData "b" (Some "hi") "c" None in
  let w := sendMessage no_faults "a" "s1" 6 d (sendMessage no_faults "a" "s1" 5 d empty_world) in
  counters_exact
    (getMessages (λ c, bool_decide (c = MessageFind)) "b" "c" None None w).1.
Proof.
  apply (getMessages_keeps_counters (λ c, bool_decide (c = MessageFind)) "b" "c" None None
           (sendMessage no_faults "a" "s1" 6 (mkMessageData "b" (Some "hi") "c" None)
              (sendMessage no_faults "a" "s1" 5 (mkMessageData "b" (Some "hi") "c" None)
                 empty_world))).
  - reflexivity.
  - apply sendMessage_well_keyed, sendMessage_well_keyed, well_keyed_empty.
  - apply sendMessage_counters_exact;
      [apply sendMessage_well_keyed, well_keyed_empty|].
    apply sendMessage_counters_exact; [apply well_keyed_empty|apply counters_exact_empty].
Defined.

Lemma findOrCreateConversation_effect (faults : Faults) (userId recipientId drawn_id : string)
    (w : World) :
  let w' := (findOrCreateConversation faults userId recipientId drawn_id w).1 in
  messages w' = messages w
  ∧ (conversations w' = conversations w
     ∨ (conversations w !! drawn_id = None
        ∧ conversations w'
          = <[drawn_id := mkConversation drawn_id [userId; recipientId] None
                            (<[userId := 0]> (<[recipientId := 0]> ∅))]>
              (conversations w))).
Proof. run_all. repeat (case_match; simpl; simplify_eq); auto. Qed.

Lemma findOrCreateConversation_counters (faults : Faults)
    (userId recipientId drawn_id : string) (w : World) :
  counters_exact w →
  counters_exact (findOrCreateConversation faults userId recipientId drawn_id w).1.
Proof.
  intros Hex.
  destruct (findOrCreateConversation_effect faults userId recipientId drawn_id w)
    as [Hm [Hc|[Hnone Hc]]].
  - by apply (counters_exact_ext w).
  - intros c p. specialize (Hex c p). unfold unread_counter, unread_messages in *.
    rewrite Hm, Hc, <- Hex.
    destruct (decide (drawn_id = c)) as [<-|Hne]; [|by rewrite lookup_insert_ne].
    rewrite lookup_insert_eq, Hnone. unfold unread_or_zero. simpl.
    destruct (decide (userId = p)) as [<-|Hu]; [by rewrite lookup_insert_eq|].
    rewrite lookup_insert_ne by done.
    destruct (decide (recipientId = p)) as [<-|Hr]; [by rewrite lookup_insert_eq|].
    by rewrite lookup_insert_ne.
Qed.

(** In a conversation of two different users, one of them the sender, the
    recipient of addMessage is the other one and only their counter moves. *)
Lemma bump_two_party (userId : string) (c : Conversation) :
  two_party c = true →
  userId ∈ participants c →
  ∃ other, other ≠ userId
           ∧ List.find (λ p, bool_decide (p ≠ userId)) (participants c) = Some other
           ∧ bump_unread userId (participants c) (unreadCount c)
             = <[other := unread_or_zero c other + 1]> (unreadCount c).
Proof.
  unfold two_party, bump_unread, unread_or_zero.
  destruct (participants c) as [|a [|b [|? ?]]]; try done.
  intros Hab Hin. apply bool_decide_eq_true_1 in Hab. simpl.
  destruct (decide (a = userId)) as [->|Ha].
  - exists b. rewrite (bool_decide_eq_false_2 (userId ≠ userId)) by (intros ?; done).
    assert (b ≠ userId) by done. by rewrite bool_decide_eq_true_2.
  - exists a. rewrite (bool_decide_eq_true_2 (a ≠ userId)) by done.
    assert (b = userId) as ->.
    { apply elem_of_cons in Hin as [?|Hin]; [congruence|].
      by apply list_elem_of_singleton in Hin. }
    by rewrite (bool_decide_eq_false_2 (userId ≠ userId)) by (intros ?; done).
Qed.

Lemma addMessage_effect (faults : Faults) (userId : string) (now : nat)
    (b : AddMessageBody) (w : World) :
  faults ConversationSave = false →
  let w' := (addMessage faults userId now b w).1 in
  (messages w' = messages w ∧ conversations w' = conversations w)
  ∨ (∃ c r, conversations w !! body_conversationId b = Some c
            ∧ userId ∈ participants c
            ∧ List.find (λ p, bool_decide (p ≠ userId)) (participants c) = Some r
            ∧ messages w'
              = <[new_id w := mkMessage (new_id w) userId r (body_conversationId b)
                                (Some (trimmed_or_empty (body_content b))) (body_image b)
                                None [] false false None false now]> (messages w)
            ∧ conversations w'
              = <[conv_id c := mkConversation (conv_id c) (participants c) (Some (new_id w))
                                 (bump_unread userId (participants c) (unreadCount c))]>
                  (conversations w)).
Proof.
  intros Hf. run_all.
  destruct (blank (body_content b) && negb (bool_decide (is_Some (body_image b))));
    simpl; [by left|].
  destruct (faults ConversationFindById); simpl; [by left|].
  destruct (conversations w !! body_conversationId b) as [c|] eqn:Hfind; simpl; [|by left].
  case_bool_decide as Hin; simpl; [|by left].
  destruct (faults MessageCreate); simpl; [by left|].
  destruct (List.find _ (participants c)) as [r|] eqn:Hr; simpl; [|by left].
  rewrite Hf. simpl. right. exists c, r.
  by destruct (faults MessagePopulate).
Qed.

Lemma addMessage_counters (faults : Faults) (userId : string) (now : nat)
    (b : AddMessageBody) (w : World) :
  faults ConversationSave = false →
  admissible w (AddMessage userId now b) →
  well_keyed w → counters_exact w →
  counters_exact (addMessage faults userId now b w).1.
Proof.
  intros Hf Hadm [Hkey _] Hex.
  destruct (addMessage_effect faults userId now b w Hf)
    as [[Hm Hc]|(c & r & Hfind & Hin & Hr & Hm & Hc)].
  - by apply (counters_exact_ext w).
  - simpl in Hadm. rewrite Hfind in Hadm.
    destruct (bump_two_party userId c Hadm Hin) as (other & _ & Hother & Hbump).
    assert (other = r) as -> by congruence.
    intros cid p. specialize (Hex cid p). unfold unread_counter, unread_messages in *.
    rewrite Hm, Hc, Hbump, (Hkey _ _ Hfind).
    rewrite unread_size_insert by apply new_id_fresh. rewrite <- Hex. clear Hex.
    destruct (decide (body_conversationId b = cid)) as [<-|Hcid].
    + rewrite lookup_insert_eq, Hfind. unfold unread_or_zero. simpl.
      destruct (decide (r = p)) as [<-|Hp].
      * rewrite lookup_insert_eq. simpl. by rewrite decide_True.
      * rewrite lookup_insert_ne by done.
        rewrite decide_False; [lia|]. by intros (_ & ? & _).
    + rewrite lookup_insert_ne by done.
      rewrite decide_False; [lia|]. by intros (? & _).
Qed.

Lemma deleteConversation_effect (faults : Faults) (more : MoreFaults)
    (userId conversation : string) (w : World) :
  more ConversationFindByIdAndDelete = false →
  let w' := (deleteConversation faults more userId conversation w).1 in
  (messages w' = messages w ∧ conversations w' = conversations w)
  ∨ (messages w' = filter (λ km, conversationId km.2 ≠ conversation) (messages w)
     ∧ conversations w' = delete conversation (conversations w)).
Proof.
  intros Hf. run_all. rewrite Hf.
  repeat (case_match; simpl; simplify_eq); auto.
Qed.

Lemma deleteConversation_counters (faults : Faults) (more : MoreFaults)
    (userId conversation : string) (w : World) :
  more ConversationFindByIdAndDelete = false →
  counters_exact w →
  counters_exact (deleteConversation faults more userId conversation w).1.
Proof.
  intros Hf Hex.
  destruct (deleteConversation_effect faults more userId conversation w Hf)
    as [[Hm Hc]|[Hm Hc]].
  - by apply (counters_exact_ext w).
  - intros c p. specialize (Hex c p). unfold unread_counter, unread_messages in *.
    rewrite Hm, Hc.
    destruct (decide (conversation = c)) as [<-|Hne].
    + rewrite lookup_delete_eq. symmetry.
      apply map_size_empty_iff, map_empty_filter.
      intros k m Hk [Hcv _]. apply map_lookup_filter_Some in Hk as [_ Hk]. by apply Hk.
    + rewrite lookup_delete_ne by done. rewrite Hex. f_equal. symmetry.
      apply map_filter_filter_l. intros k m _ [Hcv _]. simpl in *. congruence.
Qed.

Lemma handle_counters_exact (r : Request) (w : World) :
  admissible w r →
  well_keyed w → counters_exact w →
  counters_exact (handle no_faults no_more_faults r w).
Proof.
  intros Hadm Hkey Hex.
  destruct (changes_one_message r) eqn:Hone;
    [by apply counters_exact_one_message|].
  destruct r; try done; simpl.
  - by apply sendMessage_counters_exact.
  - by apply markAsRead_counters_exact.
  - by apply getMessages_keeps_counters.
  - by apply findOrCreateConversation_counters.
  - by apply addMessage_counters.
  - by apply deleteConversation_counters.
Qed.

(** X12: with every store call succeeding, all the events and requests
    keep the unread counters exact: from a store with exact counters, after
    any sequence in which each read receipt names exactly the reader's
    unread messages of its conversation, and addMessage is used only on
    conversations of two different users, each stored counter (an absent
    entry read as 0) is the number of unread messages addressed to that
    user in that conversation. *)
Theorem counters_exact_kept (rs : list Request) (w : World) :
  well_keyed w →
  counters_exact w →
  all_admissible w rs →
  counters_exact (run w ((λ r, (no_faults, no_more_faults, r)) <$> rs)).
Proof.
  revert w. induction rs as [|r rs IH]; intros w Hkey Hex Hadm; [done|].
  destruct Hadm as [Hr Hrs]. simpl. apply IH; [| |done].
  - by apply handle_well_keyed.
  - by apply handle_counters_exact.
Qed.

Lemma counters_exact_kept_witness :
  let rs := [FindOrCreate "a" "b" "c";
             AddMessage "a" 5 (mkAddMessageBody "c" (Some "hi") None);
             SendMessage "a" "s1" 6 (mkMessageData "b" (Some "again") "c" None);
             React "b" "s2" 7 0 "+1";
             GetMessages "b" "c" None None;
             AddMessage "b" 8 (mkAddMessageBody "c" (Some "yo") None);
             SocketDelete "b" "s2" 2;
             DeleteConversation "a" "c"] in
  let w := mkWorld ∅ ∅ {["a"; "b"]} ∅ ∅ [] in
  counters_exact (run w ((λ r, (no_faults, no_more_faults, r)) <$> rs)).
Proof.
  apply (counters_exact_kept
           [FindOrCreate "a" "b" "c";
            AddMessage "a" 5 (mkAddMessageBody "c" (Some "hi") None);
            SendMessage "a" "s1" 6 (mkMessageData "b" (Some "again") "c" None);
            React "b" "s2" 7 0 "+1";
            GetMessages "b" "c" None None;
            AddMessage "b" 8 (mkAddMessageBody "c" (Some "yo") None);
            SocketDelete "b" "s2" 2;
            DeleteConversation "a" "c"]
           (mkWorld ∅ ∅ {["a"; "b"]} ∅ ∅ [])).
  - split; apply map_Forall_empty.
  - intros c p. unfold unread_counter, unread_messages. simpl.
    by rewrite lookup_empty, map_filter_empty, map_size_empty.
  - vm_compute. tauto.
Defined.

(** *** Listing and searching *)

Lemma stored_values {A} (m : gmap string A) (x : A) :
  x ∈ (map_to_list m).*2 ↔ ∃ k, m !! k = Some x.
Proof.
  rewrite list_elem_of_fmap. split.
  - intros ([k y] & -> & Hin). exists k. by apply elem_of_map_to_list.
  - intros [k Hk]. exists (k, x). split; [done|]. by apply elem_of_map_to_list.
Qed.

Lemma stored_messages (m : gmap nat Message) (x : Message) :
  x ∈ (map_to_list m).*2 ↔ ∃ k, m !! k = Some x.
Proof.
  rewrite list_elem_of_fmap. split.
  - intros ([k y] & -> & Hin). exists k. by apply elem_of_map_to_list.
  - intros [k Hk]. exists (k, x). split; [done|]. by apply elem_of_map_to_list.
Qed.

Lemma conversation_ids_NoDup (w : World) :
  well_keyed w → NoDup (conv_id <$> (map_to_list (conversations w)).*2).
Proof.
  intros [Hkey _].
  assert (conv_id <$> (map_to_list (conversations w)).*2 = (map_to_list (conversations w)).*1)
    as ->; [|apply NoDup_fst_map_to_list].
  rewrite <- list_fmap_compose. apply list_fmap_ext. intros i [k c] Hi. simpl.
  apply (Hkey k c). apply elem_of_map_to_list. by eapply list_elem_of_lookup_2.
Qed.

Section listing.
Variable updatedAt : Conversation → nat.

Lemma recently_updated_sorted (l : list Conversation) :
  StronglySorted (recently_updated updatedAt) (merge_sort (recently_updated updatedAt) l).
Proof.
  apply StronglySorted_merge_sort.
  - intros a b c Hab Hbc. unfold recently_updated in *. lia.
  - intros a b. unfold recently_updated. lia.
Qed.

(** X13: getConversations never changes the state and, when its query goes
    through, answers 200 with one entry for each stored conversation that
    has the caller among its participants and for no other, most recently
    updated first.  The participant an entry names is never the caller, and
    its unread count is the caller's stored counter, which under exact
    counters is the number of unread messages addressed to the caller. *)
Theorem getConversations_lists (more : MoreFaults) (userId : string) (w : World) :
  well_keyed w →
  (getConversations updatedAt more userId w).1 = w
  ∧ (more ConversationFind = false →
     ∃ l, (getConversations updatedAt more userId w).2 = mkListing 200 (listing l)
          ∧ (∀ id, id ∈ summary_id <$> l
                   ↔ ∃ c, conversations w !! id = Some c ∧ userId ∈ participants c)
          ∧ NoDup (summary_id <$> l)
          ∧ StronglySorted (λ a b, summary_updatedAt b ≤ summary_updatedAt a) l
          ∧ Forall (λ s, participant s ≠ Some userId
                         ∧ summary_unreadCount s = unread_counter w (summary_id s) userId
                         ∧ (counters_exact w →
                            summary_unreadCount s = unread_messages w (summary_id s) userId))
              l).
Proof.
  intros Hkey. unfold getConversations, getConversations_body, find_conversations_of.
  run_all. destruct (more ConversationFind) eqn:Hf; simpl; [done|].
  split; [done|]. intros _. eexists. split; [done|].
  set (sorted := merge_sort (recently_updated updatedAt)
                   (filter (has_participant userId) (map_to_list (conversations w)).*2)).
  assert (Hin : ∀ c, c ∈ sorted ↔ (∃ k, conversations w !! k = Some c) ∧ userId ∈ participants c).
  { intros c. unfold sorted. rewrite merge_sort_Permutation, list_elem_of_filter.
    rewrite stored_values. unfold has_participant. tauto. }
  rewrite <- !list_fmap_compose.
  split; [|split; [|split]].
  - intros id. rewrite list_elem_of_fmap. split.
    + intros (c & -> & Hc). apply Hin in Hc as [[k Hk] Hp]. exists c. simpl.
      by rewrite (proj1 Hkey _ _ Hk).
    + intros (c & Hc & Hp). exists c. simpl. rewrite (proj1 Hkey _ _ Hc).
      split; [done|]. apply Hin. eauto.
  - change (NoDup (conv_id <$> sorted)). unfold sorted. rewrite merge_sort_Permutation.
    eapply sublist_NoDup; [apply (conversation_ids_NoDup w Hkey)|].
    apply fmap_sublist, (sublist_filter (has_participant userId)).
  - apply (StronglySorted_fmap _ (recently_updated updatedAt));
      [by intros a b|apply recently_updated_sorted].
  - apply Forall_fmap, Forall_forall. intros c Hc. apply Hin in Hc as [[k Hk] Hp]. simpl.
    assert (Hcount : unread_or_zero c userId = unread_counter w (conv_id c) userId).
    { unfold unread_counter. by rewrite (proj1 Hkey _ _ Hk), Hk. }
    split; [|split; [done|]].
    + intros Hfind. apply find_some in Hfind as [_ Hne].
      by apply bool_decide_eq_true_1 in Hne.
    + intros Hex. by rewrite Hcount.
Qed.
End listing.

Lemma getConversations_lists_witness :
  let d := mkMessageData "b" (Some "hi") "c" None in
  let w := sendMessage no_faults "a" "s1" 5 d empty_world in
  (getConversations (λ _, 0) no_more_faults "b" w).1 = w
  ∧ (no_more_faults ConversationFind = false →
     ∃ l, (getConversations (λ _, 0) no_more_faults "b" w).2 = mkListing 200 (listing l)
          ∧ (∀ id, id ∈ summary_id <$> l
                   ↔ ∃ c, conversations w !! id = Some c ∧ "b" ∈ participants c)
          ∧ NoDup (summary_id <$> l)
          ∧ StronglySorted (λ a b, summary_updatedAt b ≤ summary_updatedAt a) l
          ∧ Forall (λ s, participant s ≠ Some "b"
                         ∧ summary_unreadCount s = unread_counter w (summary_id s) "b"
                         ∧ (counters_exact w →
                            summary_unreadCount s = unread_messages w (summary_id s) "b"))
              l).
Proof.
  apply (getConversations_lists (λ _, 0) no_more_faults "b"
           (sendMessage no_faults "a" "s1" 5 (mkMessageData "b" (Some "hi") "c" None)
              empty_world)).
  apply sendMessage_well_keyed, well_keyed_empty.
Defined.

Lemma newest_first_sorted (l : list Message) :
  StronglySorted newest_first (merge_sort newest_first l).
Proof.
  apply StronglySorted_merge_sort.
  - intros a b c Hab Hbc. unfold newest_first in *. lia.
  - intros a b. unfold newest_first. lia.
Qed.

Lemma StronglySorted_take {A} (R : relation A) (n : nat) (l : list A) :
  StronglySorted R l → StronglySorted R (take n l).
Proof.
  intros Hl. rewrite <- (take_drop n l) in Hl. by apply StronglySorted_app_1_l in Hl.
Qed.

Section search.
Variable regex : string → option (string → bool).

Lemma find_hits_spec (conversation query : string) (w w' : World) (ms : list Message) :
  find_hits regex conversation query w = Some (w', ms) →
  w' = w
  ∧ length ms ≤ 20
  ∧ StronglySorted newest_first ms
  ∧ Forall (λ m, (∃ k, messages w !! k = Some m)
                 ∧ conversationId m = conversation
                 ∧ deleted m = false
                 ∧ ∃ test text, regex query = Some test ∧ content m = Some text
                                ∧ test text = true) ms.
Proof.
  unfold find_hits. destruct (regex query) as [test|]; [|done].
  intros [= <- <-]. split; [done|]. split; [rewrite length_take; lia|].
  split; [apply StronglySorted_take, newest_first_sorted|].
  apply Forall_forall. intros m Hm. apply subseteq_take in Hm.
  rewrite merge_sort_Permutation in Hm.
  apply list_elem_of_filter in Hm as [(Hc & Ht & Hd) Hm].
  split; [by apply stored_messages|]. split; [done|].
  split; [by destruct (deleted m)|].
  destruct (content m) as [text|]; [|done]. by exists test, text.
Qed.

(** X14: searchMessages never changes the state.  When it answers 200 the
    caller is a participant of the conversation and the answer holds at
    most 20 messages, newest first, each one stored, of that conversation,
    not deleted, and with a content the pattern matches. *)
Theorem searchMessages_hits (faults : Faults) (userId conversation : string)
    (query : option string) (w : World) :
  (searchMessages regex faults userId conversation query w).1 = w
  ∧ (status (searchMessages regex faults userId conversation query w).2 = 200 →
     ∃ ms, body (searchMessages regex faults userId conversation query w).2
           = success_messages ms
           ∧ (∃ c, conversations w !! conversation = Some c ∧ userId ∈ participants c)
           ∧ length ms ≤ 20
           ∧ StronglySorted newest_first ms
           ∧ Forall (λ m, (∃ k, messages w !! k = Some m)
                          ∧ conversationId m = conversation
                          ∧ deleted m = false
                          ∧ ∃ q test text, query = Some q ∧ regex q = Some test
                                           ∧ content m = Some text ∧ test text = true) ms).
Proof.
  unfold searchMessages, searchMessages_body. run_all.
  destruct query as [q|]; simpl; [|done].
  destruct (negb (negb (bool_decide (q = ""))) || bool_decide (String.length (trim q) = 0));
    simpl; [done|].
  destruct (faults ConversationFindById); simpl; [done|].
  destruct (conversations w !! conversation) as [c|] eqn:Hfind; simpl; [|done].
  case_bool_decide as Hin; simpl; [|done].
  destruct (faults MessageFind); simpl; [done|].
  destruct (find_hits regex conversation q w) as [[w' ms]|] eqn:Hhits; simpl; [|done].
  apply find_hits_spec in Hhits as (-> & Hlen & Hsorted & Hall).
  split; [done|]. intros _. exists ms. split; [done|]. split; [eauto|].
  split; [done|]. split; [done|].
  eapply Forall_impl; [exact Hall|]. simpl.
  intros m (Hk & Hc & Hd & test & text & Hre & Hct & Ht).
  split; [done|]. split; [done|]. split; [done|]. by exists q, test, text.
Qed.
End search.

(** *** Deleted messages and deleted conversations *)

Lemma deleteMessage_ok (faults : Faults) (userId socketId : string) (messageId : nat)
    (m : Message) (w : World) :
  faults MessageFindById = false →
  faults MessageSave = false →
  messages w !! messageId = Some m →
  _id m = messageId →
  sender m = userId →
  messages (Socket.deleteMessage faults userId socketId messageId w)
  = <[messageId := Socket.set_deleted m]> (messages w)
  ∧ conversations (Socket.deleteMessage faults userId socketId messageId w) = conversations w
  ∧ messages (Controller.deleteMessage faults userId messageId w).1
    = <[messageId := Controller.set_deleted m]> (messages w)
  ∧ conversations (Controller.deleteMessage faults userId messageId w).1 = conversations w.
Proof.
  intros Hf Hs Hm Hid Hu. run_all. rewrite Hf, Hm. simpl.
  rewrite bool_decide_eq_false_2 by (intros Hne; by apply Hne). simpl.
  rewrite Hs. simpl. by rewrite Hid.
Qed.

Section search_deleted.
Variable regex : string → option (string → bool).

(** X15: once a message is deleted, by the socket handler or by the
    controller, no search answers with it, whatever the pattern: not even
    one that matches the tombstone text. *)
Theorem deleted_message_is_not_found (faults faults' : Faults) (userId socketId : string)
    (messageId : nat) (m : Message) (reader conversation : string) (query : option string)
    (w : World) :
  well_keyed w →
  faults MessageFindById = false →
  faults MessageSave = false →
  messages w !! messageId = Some m →
  sender m = userId →
  Forall (λ hit, _id hit ≠ messageId)
    (answered_messages
       (searchMessages regex faults' reader conversation query
          (Socket.deleteMessage faults userId socketId messageId w)).2)
  ∧ Forall (λ hit, _id hit ≠ messageId)
      (answered_messages
         (searchMessages regex faults' reader conversation query
            (Controller.deleteMessage faults userId messageId w).1).2).
Proof.
  intros Hkey Hf Hs Hm Hu.
  assert (Hid : _id m = messageId) by (by apply (proj2 Hkey)).
  destruct (deleteMessage_ok faults userId socketId messageId m w Hf Hs Hm Hid Hu)
    as (Hsock & _ & Hrest & _).
  assert (Hgen : ∀ w', well_keyed w' →
            (∃ m', messages w' !! messageId = Some m' ∧ deleted m' = true) →
            Forall (λ hit, _id hit ≠ messageId)
              (answered_messages
                 (searchMessages regex faults' reader conversation query w').2)).
  { intros w' Hkey' Hdel.
    destruct (searchMessages_hits regex faults' reader conversation query w') as [_ Hhits].
    destruct (status (searchMessages regex faults' reader conversation query w').2
              =? 200) eqn:Hst.
    - apply Nat.eqb_eq in Hst. destruct (Hhits Hst) as (ms & Hbody & _ & _ & _ & Hall).
      unfold answered_messages. rewrite Hbody.
      eapply Forall_impl; [exact Hall|]. simpl.
      intros hit ([k Hk] & _ & Hnot & _) Hsame.
      rewrite <- Hsame, (proj2 Hkey' _ _ Hk) in Hdel.
      destruct Hdel as (m' & Hm' & Hd). congruence.
    - apply Nat.eqb_neq in Hst. revert Hst.
      unfold answered_messages, searchMessages, searchMessages_body. run_all.
      repeat (case_match; simpl; simplify_eq); done. }
  split; apply Hgen.
  - by apply (handle_well_keyed faults no_more_faults (SocketDelete userId socketId messageId)).
  - rewrite Hsock, lookup_insert_eq. by eexists.
  - by apply (handle_well_keyed faults no_more_faults (RestDelete userId messageId)).
  - rewrite Hrest, lookup_insert_eq. by eexists.
Qed.
End search_deleted.

Lemma deleted_message_is_not_found_witness :
  let d := mkMessageData "b" (Some "This message has been deleted") "c" None in
  let w := sendMessage no_faults "a" "s1" 5 d empty_world in
  Forall (λ hit, _id hit ≠ 0)
    (answered_messages
       (searchMessages (λ _, Some (λ _, true)) no_faults "b" "c" (Some "deleted")
          (Socket.deleteMessage no_faults "a" "s1" 0 w)).2)
  ∧ Forall (λ hit, _id hit ≠ 0)
      (answered_messages
         (searchMessages (λ _, Some (λ _, true)) no_faults "b" "c" (Some "deleted")
            (Controller.deleteMessage no_faults "a" 0 w).1).2).
Proof.
  apply (deleted_message_is_not_found (λ _, Some (λ _, true)) no_faults no_faults "a" "s1" 0
           (new_message empty_world "a" 5
              (mkMessageData "b" (Some "This message has been deleted") "c" None))
           "b" "c" (Some "deleted")
           (sendMessage no_faults "a" "s1" 5
              (mkMessageData "b" (Some "This message has been deleted") "c" None)
              empty_world)).
  - apply sendMessage_well_keyed, well_keyed_empty.
  - reflexivity.
  - reflexivity.
  - vm_compute. reflexivity.
  - reflexivity.
Defined.

(** X16: a deleteConversation that is answered with 200 was asked by a
    participant; it removes the conversation and every message of it, and
    keeps every other message and conversation as it was. *)
Theorem deleteConversation_cascades (faults : Faults) (more : MoreFaults)
    (userId conversation : string) (w : World) :
  status (deleteConversation faults more userId conversation w).2 = 200 →
  (∃ c, conversations w !! conversation = Some c ∧ userId ∈ participants c)
  ∧ conversations (deleteConversation faults more userId conversation w).1
    = delete conversation (conversations w)
  ∧ (∀ k m, messages (deleteConversation faults more userId conversation w).1 !! k = Some m
            ↔ messages w !! k = Some m ∧ conversationId m ≠ conversation).
Proof.
  run_all.
  destruct (faults ConversationFindById); simpl; [done|].
  destruct (conversations w !! conversation) as [c|] eqn:Hfind; simpl; [|done].
  case_bool_decide as Hin; simpl; [|done].
  destruct (more MessageDeleteMany); simpl; [done|].
  destruct (more ConversationFindByIdAndDelete); simpl; [done|].
  intros _. split; [eauto|]. split; [done|].
  intros k m. rewrite map_lookup_filter_Some. simpl. tauto.
Qed.

Lemma deleteConversation_cascades_witness :
  let d := mkMessageData "b" (Some "hi") "c" None in
  let w := sendMessage no_faults "a" "s1" 5 d empty_world in
  (∃ c, conversations w !! "c" = Some c ∧ "b" ∈ participants c)
  ∧ conversations (deleteConversation no_faults no_more_faults "b" "c" w).1
    = delete "c" (conversations w)
  ∧ (∀ k m, messages (deleteConversation no_faults no_more_faults "b" "c" w).1 !! k = Some m
            ↔ messages w !! k = Some m ∧ conversationId m ≠ "c").
Proof.
  apply (deleteConversation_cascades no_faults no_more_faults "b" "c"
           (sendMessage no_faults "a" "s1" 5 (mkMessageData "b" (Some "hi") "c" None)
              empty_world)).
  vm_compute. reflexivity.
Defined.

(** X17: when the removal of the messages goes through and the removal of
    the conversation rejects, deleteConversation answers 500 and the
    conversation stays stored as it was, with its [lastMessage] and its
    counters, while no message of it is stored any more. *)
Theorem deleteConversation_half_done (faults : Faults) (more : MoreFaults)
    (userId conversation : string) (c : Conversation) (w : World) :
  faults ConversationFindById = false →
  more MessageDeleteMany = false →
  more ConversationFindByIdAndDelete = true →
  conversations w !! conversation = Some c →
  userId ∈ participants c →
  status (deleteConversation faults more userId conversation w).2 = 500
  ∧ conversations (deleteConversation faults more userId conversation w).1 = conversations w
  ∧ (∀ k m, messages (deleteConversation faults more userId conversation w).1 !! k = Some m
            ↔ messages w !! k = Some m ∧ conversationId m ≠ conversation)
  ∧ (∀ p, unread_messages (deleteConversation faults more userId conversation w).1
            conversation p = 0
          ∧ unread_counter (deleteConversation faults more userId conversation w).1
              conversation p = unread_or_zero c p).
Proof.
  intros Hf Hdm Hdc Hfind Hin. run_all. rewrite Hf, Hfind. simpl.
  rewrite bool_decide_eq_true_2 by done. simpl. rewrite Hdm. simpl. rewrite Hdc. simpl.
  split; [done|]. split; [done|]. split.
  - intros k m. rewrite map_lookup_filter_Some. simpl. tauto.
  - intros p. split.
    + unfold unread_messages. simpl. apply map_size_empty_iff, map_empty_filter.
      intros k m Hk [Hc _]. apply map_lookup_filter_Some in Hk as [_ Hk]. by apply Hk.
    + unfold unread_counter. simpl. by rewrite Hfind.
Qed.

Lemma deleteConversation_half_done_witness :
  let d := mkMessageData "b" (Some "hi") "c" None in
  let w := sendMessage no_faults "a" "s1" 5 d empty_world in
  let more := λ c, bool_decide (c = ConversationFindByIdAndDelete) in
  let c := mkConversation "c" ["a"; "b"] (Some 0) {[ "b" := 1 ]} in
  status (deleteConversation no_faults more "a" "c" w).2 = 500
  ∧ conversations (deleteConversation no_faults more "a" "c" w).1 = conversations w
  ∧ (∀ k m, messages (deleteConversation no_faults more "a" "c" w).1 !! k = Some m
            ↔ messages w !! k = Some m ∧ conversationId m ≠ "c")
  ∧ (∀ p, unread_messages (deleteConversation no_faults more "a" "c" w).1 "c" p = 0
          ∧ unread_counter (deleteConversation no_faults more "a" "c" w).1 "c" p
            = unread_or_zero c p).
Proof.
  apply (deleteConversation_half_done no_faults
           (λ c, bool_decide (c = ConversationFindByIdAndDelete)) "a" "c"
           (mkConversation "c" ["a"; "b"] (Some 0) {[ "b" := 1 ]})
           (sendMessage no_faults "a" "s1" 5 (mkMessageData "b" (Some "hi") "c" None)
              empty_world)).
  - reflexivity.
  - reflexivity.
  - reflexivity.
  - vm_compute. reflexivity.
  - apply list_elem_of_here.
Defined.

(** *** Who may do what *)

Section outsiders.
Variable regex : string → option (string → bool).

(** X18: the controller refuses a user who is not a participant of a stored
    conversation: getMessages, getConversationById, addMessage (with
    content or image), searchMessages (with a query) and deleteConversation
    all answer 403 and change nothing. *)
Theorem controller_refuses_outsiders (faults : Faults) (more : MoreFaults)
    (userId conversation : string) (c : Conversation) (page limit : option Z)
    (now : nat) (b : AddMessageBody) (query : option string) (w : World) :
  faults ConversationFindById = false →
  conversations w !! conversation = Some c →
  userId ∉ participants c →
  getMessages faults userId conversation page limit w
  = (w, mkResponse 403 (failure "You do not have access to this conversation"))
  ∧ getConversationById faults userId conversation w
    = (w, mkResponse 403 (failure "You do not have access"))
  ∧ (body_conversationId b = conversation →
     blank (body_content b) = false ∨ is_Some (body_image b) →
     addMessage faults userId now b w
     = (w, mkResponse 403 (failure "No access to this conversation")))
  ∧ (blank query = false →
     searchMessages regex faults userId conversation query w
     = (w, mkResponse 403 (failure "You do not have access to this conversation")))
  ∧ deleteConversation faults more userId conversation w
    = (w, mkResponse 403 (failure "You do not have access to this conversation")).
Proof.
  intros Hf Hfind Hout.
  assert (Hpop : userId ∉ populate_participants w (participants c)).
  { unfold populate_participants. rewrite list_elem_of_filter. tauto. }
  split; [|split; [|split; [|split]]].
  - run_all. rewrite Hf, Hfind. simpl. by rewrite bool_decide_eq_false_2.
  - run_all. rewrite Hf, Hfind. simpl. by rewrite bool_decide_eq_false_2.
  - intros <- Hvalid. run_all.
    assert (blank (body_content b) && negb (bool_decide (is_Some (body_image b))) = false)
      as ->.
    { destruct Hvalid as [->|Hi]; [done|]. rewrite (bool_decide_eq_true_2 _ Hi).
      by destruct (blank (body_content b)). }
    simpl. rewrite Hf, Hfind. simpl. by rewrite bool_decide_eq_false_2.
  - intros Hq. unfold searchMessages, searchMessages_body. run_all.
    destruct query as [q|]; [|done]. simpl in Hq. rewrite Hq. simpl.
    rewrite Hf, Hfind. simpl. by rewrite bool_decide_eq_false_2.
  - run_all. rewrite Hf, Hfind. simpl. by rewrite bool_decide_eq_false_2.
Qed.
End outsiders.

Lemma controller_refuses_outsiders_witness :
  let d := mkMessageData "b" (Some "hi") "c" None in
  let w := sendMessage no_faults "a" "s1" 5 d empty_world in
  let b := mkAddMessageBody "c" (Some "let me in") None in
  getMessages no_faults "eve" "c" None None w
  = (w, mkResponse 403 (failure "You do not have access to this conversation"))
  ∧ getConversationById no_faults "eve" "c" w
    = (w, mkResponse 403 (failure "You do not have access"))
  ∧ (body_conversationId b = "c" →
     blank (body_content b) = false ∨ is_Some (body_image b) →
     addMessage no_faults "eve" 6 b w
     = (w, mkResponse 403 (failure "No access to this conversation")))
  ∧ (blank (Some "hi") = false →
     searchMessages (λ _, Some (λ _, true)) no_faults "eve" "c" (Some "hi") w
     = (w, mkResponse 403 (failure "You do not have access to this conversation")))
  ∧ deleteConversation no_faults no_more_faults "eve" "c" w
    = (w, mkResponse 403 (failure "You do not have access to this conversation")).
Proof.
  apply (controller_refuses_outsiders (λ _, Some (λ _, true)) no_faults no_more_faults
           "eve" "c" (mkConversation "c" ["a"; "b"] (Some 0) {[ "b" := 1 ]}) None None 6
           (mkAddMessageBody "c" (Some "let me in") None) (Some "hi")
           (sendMessage no_faults "a" "s1" 5 (mkMessageData "b" (Some "hi") "c" None)
              empty_world)).
  - reflexivity.
  - vm_compute. reflexivity.
  - apply (bool_decide_unpack ("eve" ∉ ["a"; "b"])). vm_compute. exact I.
Defined.

(** *** Editing what was deleted *)

Lemma editMessage_ok (userId socketId : string) (now : nat) (messageId : nat)
    (newContent : option string) (m : Message) (w : World) :
  messages w !! messageId = Some m →
  _id m = messageId →
  sender m = userId →
  messages (Socket.editMessage no_faults userId socketId now messageId newContent w)
  = <[messageId := set_edited m newContent now]> (messages w)
  ∧ (blank newContent = false →
     Controller.editMessage no_faults userId now messageId newContent w
     = (with_messages
          (insert messageId (set_edited m (Some (trimmed_or_empty newContent)) now)) w,
        mkResponse 200
          (success_message (set_edited m (Some (trimmed_or_empty newContent)) now)))).
Proof.
  intros Hm Hid Hu. split.
  - run_all. rewrite Hm. simpl.
    rewrite bool_decide_eq_false_2 by (intros Hne; by apply Hne). simpl. by rewrite Hid.
  - intros Hb. run_all. rewrite Hb, Hm. simpl.
    rewrite bool_decide_eq_false_2 by (intros Hne; by apply Hne). simpl. by rewrite Hid.
Qed.

(** X19: neither editMessage looks at the [deleted] flag: the sender can
    edit a message after deleting it, and the stored record then carries
    the new content in place of the tombstone while it is still flagged as
    deleted. *)
Theorem deleted_message_can_be_edited (userId socketId : string) (now : nat)
    (messageId : nat) (newContent : option string) (m : Message) (w : World) :
  messages w !! messageId = Some m →
  _id m = messageId →
  sender m = userId →
  (∃ m', messages (Socket.editMessage no_faults userId socketId now messageId newContent
                     (Socket.deleteMessage no_faults userId socketId messageId w))
           !! messageId = Some m'
         ∧ deleted m' = true ∧ edited m' = true ∧ content m' = newContent)
  ∧ (blank newContent = false →
     ∃ m', (Controller.editMessage no_faults userId now messageId newContent
              (Controller.deleteMessage no_faults userId messageId w).1).2
           = mkResponse 200 (success_message m')
           ∧ messages (Controller.editMessage no_faults userId now messageId newContent
                         (Controller.deleteMessage no_faults userId messageId w).1).1
               !! messageId = Some m'
           ∧ deleted m' = true ∧ edited m' = true
           ∧ content m' = Some (trimmed_or_empty newContent)).
Proof.
  intros Hm Hid Hu.
  destruct (deleteMessage_ok no_faults userId socketId messageId m w
              eq_refl eq_refl Hm Hid Hu) as (Hsock & _ & Hrest & _).
  split.
  - set (w1 := Socket.deleteMessage no_faults userId socketId messageId w) in *.
    assert (Hm1 : messages w1 !! messageId = Some (Socket.set_deleted m))
      by (rewrite Hsock; apply lookup_insert_eq).
    destruct (editMessage_ok userId socketId now messageId newContent
                (Socket.set_deleted m) w1 Hm1 Hid Hu) as [-> _].
    rewrite lookup_insert_eq. by eexists.
  - intros Hb.
    set (w1 := (Controller.deleteMessage no_faults userId messageId w).1) in *.
    assert (Hm1 : messages w1 !! messageId = Some (Controller.set_deleted m))
      by (rewrite Hrest; apply lookup_insert_eq).
    destruct (editMessage_ok userId socketId now messageId newContent
                (Controller.set_deleted m) w1 Hm1 Hid Hu) as [_ Hedit].
    rewrite (Hedit Hb). simpl. rewrite lookup_insert_eq. by eexists.
Qed.

Lemma deleted_message_can_be_edited_witness :
  let d := mkMessageData "b" (Some "hi") "c" None in
  let w := sendMessage no_faults "a" "s1" 5 d empty_world in
  (∃ m', messages (Socket.editMessage no_faults "a" "s1" 7 0 (Some "back")
                     (Socket.deleteMessage no_faults "a" "s1" 0 w)) !! 0 = Some m'
         ∧ deleted m' = true ∧ edited m' = true ∧ content m' = Some "back")
  ∧ (blank (Some "back") = false →
     ∃ m', (Controller.editMessage no_faults "a" 7 0 (Some "back")
              (Controller.deleteMessage no_faults "a" 0 w).1).2
           = mkResponse 200 (success_message m')
           ∧ messages (Controller.editMessage no_faults "a" 7 0 (Some "back")
                         (Controller.deleteMessage no_faults "a" 0 w).1).1 !! 0 = Some m'
           ∧ deleted m' = true ∧ edited m' = true
           ∧ content m' = Some (trimmed_or_empty (Some "back"))).
Proof.
  apply (deleted_message_can_be_edited "a" "s1" 7 0 (Some "back")
           (new_message empty_world "a" 5 (mkMessageData "b" (Some "hi") "c" None))
           (sendMessage no_faults "a" "s1" 5 (mkMessageData "b" (Some "hi") "c" None)
              empty_world));
    reflexivity.
Defined.

(** *** Presence and notifications *)

Lemma sendMessage_outbox (userId socketId : string) (now : nat) (d : MessageData)
    (w : World) :
  outbox (sendMessage no_faults userId socketId now d w)
  = outbox w
    ++ (IoTo (msg_conversationId d), newMessage (new_message w userId now d))
    :: match onlineUsers w !! recipientId d with
       | Some s =>
           if bool_decide (s = "") then []
           else [(IoTo s, messageNotification (new_message w userId now d)
                            (msg_conversationId d))]
       | None => []
       end.
Proof.
  run_all.
  destruct (conversations w !! msg_conversationId d) as [c|]; simpl;
    (destruct (onlineUsers w !! recipientId d) as [s|]; simpl;
     [destruct (bool_decide (s = "")); simpl|]);
    by rewrite <- ?app_assoc.
Qed.

(** X20: the notification of a new message goes to the socket that the
    recipient connected last and to no other, whether or not that socket
    has joined the conversation; and once any socket of the recipient has
    disconnected no notification is sent at all, although the later socket
    is still live. *)
Theorem notification_follows_last_connection (recipient s1 s2 userId socketId : string)
    (now : nat) (d : MessageData) (w : World) :
  recipientId d = recipient →
  s2 ≠ "" →
  s1 ≠ s2 →
  let online := connection recipient s2 (connection recipient s1 w) in
  let m := new_message w userId now d in
  outbox (sendMessage no_faults userId socketId now d online)
  = outbox online ++ [(IoTo (msg_conversationId d), newMessage m);
                      (IoTo s2, messageNotification m (msg_conversationId d))]
  ∧ sockets (disconnect recipient s1 online) !! s2 = Some recipient
  ∧ outbox (sendMessage no_faults userId socketId now d (disconnect recipient s1 online))
    = outbox (disconnect recipient s1 online)
        ++ [(IoTo (msg_conversationId d), newMessage m)].
Proof.
  intros Hr Hs2 Hne. simpl. rewrite !sendMessage_outbox, Hr. simpl.
  rewrite lookup_insert_eq, lookup_delete_eq, (bool_decide_eq_false_2 _ Hs2).
  split; [done|]. split; [|done].
  rewrite lookup_delete_ne by done. apply lookup_insert_eq.
Qed.

Lemma notification_follows_last_connection_witness :
  let d := mkMessageData "b" (Some "hi") "c" None in
  let online := connection "b" "s2" (connection "b" "s1" empty_world) in
  let m := new_message empty_world "a" 5 d in
  outbox (sendMessage no_faults "a" "s0" 5 d online)
  = outbox online ++ [(IoTo (msg_conversationId d), newMessage m);
                      (IoTo "s2", messageNotification m (msg_conversationId d))]
  ∧ sockets (disconnect "b" "s1" online) !! "s2" = Some "b"
  ∧ outbox (sendMessage no_faults "a" "s0" 5 d (disconnect "b" "s1" online))
    = outbox (disconnect "b" "s1" online)
        ++ [(IoTo (msg_conversationId d), newMessage m)].
Proof.
  apply (notification_follows_last_connection "b" "s1" "s2" "a" "s0" 5
           (mkMessageData "b" (Some "hi") "c" None) empty_world); done.
Defined.

(** X21: the handshake binds a socket only to a token that is not empty and
    that [jwt.verify] accepts; then the user is recorded as online under
    this socket and the status is broadcast.  Any other handshake changes
    nothing, and an empty token is refused without being verified. *)
Theorem handshake_needs_valid_token (verify : string → option string)
    (token : option string) (socketId : string) (w : World) :
  (∀ userId, authenticate verify token = inr userId
             ↔ ∃ t, token = Some t ∧ t ≠ "" ∧ verify t = Some userId)
  ∧ (authenticate verify (Some "") = inl "Authentication error: Token not provided")
  ∧ match authenticate verify token with
    | inr userId =>
        onlineUsers (handshake verify token socketId w) !! userId = Some socketId
        ∧ outbox (handshake verify token socketId w)
          = outbox w ++ [(IoEmit, userStatus userId true)]
    | inl _ => handshake verify token socketId w = w
    end.
Proof.
  unfold handshake, authenticate. split; [|split; [done|]].
  - intros userId. destruct token as [t|]; simpl.
    + case_bool_decide as Ht; simpl.
      * split; [done|]. by intros (? & [= <-] & ? & _).
      * destruct (verify t) as [u|] eqn:Hv; simpl.
        -- split; [intros [= <-]; eauto|]. intros (? & [= <-] & _ & Hu). congruence.
        -- split; [done|]. intros (? & [= <-] & _ & Hu). congruence.
    + split; [done|]. by intros (? & ? & _).
  - destruct token as [t|]; simpl; [|done].
    case_bool_decide; simpl; [done|].
    destruct (verify t); simpl; [|done]. split; [apply lookup_insert_eq|done].
Qed.

(** *** Routing *)

Section routing.
Variable decode : string → option string.

Lemma regexp_exec_lit (text segment : string) (route : list Router.Piece) (path : list string) :
  Router.regexp_exec (Router.lit text :: route) (segment :: path)
  = if bool_decide (Router.lower segment = Router.lower text)
    then Router.regexp_exec route path else None.
Proof. reflexivity. Qed.

Lemma regexp_exec_param (name segment : string) (route : list Router.Piece)
    (path : list string) :
  segment ≠ "" →
  Router.regexp_exec (Router.param name :: route) (segment :: path)
  = cons (name, segment) <$> Router.regexp_exec route path.
Proof. intros H. cbn [Router.regexp_exec]. by rewrite bool_decide_eq_false_2. Qed.

Lemma dispatch_in_skip (m method : Router.Method) (route : list Router.Piece)
    (endpoint : Router.Endpoint) (routes : list (Router.Method * list Router.Piece * Router.Endpoint))
    (path : list string) :
  Router.regexp_exec route path = None →
  Router.dispatch_in decode ((m, route, endpoint) :: routes) method path
  = Router.dispatch_in decode routes method path.
Proof. intros H. cbn [Router.dispatch_in]. unfold Router.match_path. by rewrite H. Qed.

Lemma dispatch_in_take (method : Router.Method) (route : list Router.Piece)
    (endpoint : Router.Endpoint) (routes : list (Router.Method * list Router.Piece * Router.Endpoint))
    (path : list string) (name segment : string) :
  Router.regexp_exec route path = Some [(name, segment)] →
  Router.dispatch_in decode ((method, route, endpoint) :: routes) method path
  = match decode segment with
    | Some value => Router.Handled endpoint [(name, value)]
    | None => Router.BadRequest
    end.
Proof.
  intros H. cbn [Router.dispatch_in]. unfold Router.match_path. rewrite H.
  cbn [Router.decode_params]. destruct (decode segment); [|done].
  cbn [fmap option_fmap option_map]. by rewrite bool_decide_eq_true_2.
Qed.

Ltac literal :=
  rewrite regexp_exec_lit;
  first [ rewrite bool_decide_eq_true_2 by assumption
        | rewrite bool_decide_eq_false_2 by assumption
        | rewrite bool_decide_eq_true_2 by (vm_compute; reflexivity)
        | rewrite bool_decide_eq_false_2 by (vm_compute; discriminate) ].

Ltac regexp :=
  repeat first [ literal | rewrite regexp_exec_param by done ];
  cbn [Router.regexp_exec fmap option_fmap option_map];
  rewrite ?bool_decide_eq_false_2 by done; try reflexivity.

Ltac skip := rewrite dispatch_in_skip by regexp.
Ltac take := erewrite dispatch_in_take; [|regexp].

(** X22: among the GET routes under [conversations], the order of
    registration decides, and a parameter is bound to the decoded segment.
    A request for the conversation with user [r] reaches
    findOrCreateConversation with the decoding of [r], and is answered with
    400 when [r] does not decode, unless [r] reads "messages", in any
    letter case: then it is getMessages that runs, for the conversation
    "user".  A search in conversation [c] reaches searchMessages with the
    decoding of [c], or 400, unless [c] reads "user": then
    findOrCreateConversation runs, for the recipient "search".  The messages
    of a conversation [c] reach getMessages with the decoding of [c], or
    400.  The decoder is any function that leaves the two words "user" and
    "search" as they are. *)
Theorem conversation_routes (r c : string) :
  decode "user" = Some "user" →
  decode "search" = Some "search" →
  r ≠ "" →
  c ≠ "" →
  Router.dispatch decode Router.GET ["conversations"; "user"; r]
  = (if bool_decide (Router.lower r = "messages")
     then Router.Handled Router.getMessages [("conversationId", "user")]
     else match decode r with
          | Some recipientId =>
              Router.Handled Router.findOrCreateConversation [("recipientId", recipientId)]
          | None => Router.BadRequest
          end)
  ∧ Router.dispatch decode Router.GET ["conversations"; c; "search"]
    = (if bool_decide (Router.lower c = "user")
       then Router.Handled Router.findOrCreateConversation [("recipientId", "search")]
       else match decode c with
            | Some conversation =>
                Router.Handled Router.searchMessages [("conversationId", conversation)]
            | None => Router.BadRequest
            end)
  ∧ Router.dispatch decode Router.GET ["conversations"; c; "messages"]
    = match decode c with
      | Some conversation =>
          Router.Handled Router.getMessages [("conversationId", conversation)]
      | None => Router.BadRequest
      end.
Proof.
  intros Huser Hsearch Hr Hc.
  unfold Router.dispatch, Router.chatRouter.
  split; [|split].
  - case_bool_decide as Hrm;
      change "messages" with (Router.lower "messages") in Hrm.
    + skip. skip. take. by rewrite Huser.
    + skip. skip. skip. take. done.
  - case_bool_decide as Hcu;
      change "user" with (Router.lower "user") in Hcu.
    + skip. skip. skip. take. by rewrite Hsearch.
    + skip. skip. skip. skip. skip. skip. skip. take. done.
  - skip. skip. take. done.
Qed.
End routing.

(** Here the decoder knows one escape, [%20], between two letters, and
    refuses a lone percent sign. *)
Lemma conversation_routes_witness :
  let decode := λ s : string,
    if bool_decide (s = "a%20b") then Some "a b"
    else if bool_decide (s = "%") then None else Some s in
  Router.dispatch decode Router.GET ["conversations"; "user"; "a%20b"]
  = Router.Handled Router.findOrCreateConversation [("recipientId", "a b")]
  ∧ Router.dispatch decode Router.GET ["conversations"; "%"; "search"]
    = Router.BadRequest
  ∧ Router.dispatch decode Router.GET ["conversations"; "%"; "messages"]
    = Router.BadRequest.
Proof.
  pose proof (conversation_routes
                (λ s : string,
                   if bool_decide (s = "a%20b") then Some "a b"
                   else if bool_decide (s = "%") then None else Some s)
                "a%20b" "%") as H.
  vm_compute in H. vm_compute. apply H; [reflexivity|reflexivity|discriminate|discriminate].
Defined.

(** *** Adding a message through the controller *)

(** X23: an addMessage that is answered with 201 in a conversation of two
    different users stores a new unread message from the caller to the
    other participant, with the trimmed content and the image given, makes
    it the conversation's last message, and adds one to the other
    participant's counter and to no other. *)
Theorem addMessage_delivers (faults : Faults) (userId : string) (now : nat)
    (b : AddMessageBody) (c : Conversation) (w : World) :
  well_keyed w →
  conversations w !! body_conversationId b = Some c →
  two_party c = true →
  status (addMessage faults userId now b w).2 = 201 →
  ∃ m other c',
    body (addMessage faults userId now b w).2 = success_message m
    ∧ messages w !! _id m = None
    ∧ messages (addMessage faults userId now b w).1 !! _id m = Some m
    ∧ sender m = userId ∧ recipient m = other
    ∧ other ≠ userId ∧ other ∈ participants c ∧ userId ∈ participants c
    ∧ conversationId m = body_conversationId b
    ∧ content m = Some (trimmed_or_empty (body_content b))
    ∧ image m = body_image b ∧ read m = false
    ∧ conversations (addMessage faults userId now b w).1 !! body_conversationId b = Some c'
    ∧ lastMessage c' = Some (_id m)
    ∧ participants c' = participants c
    ∧ unread_or_zero c' other = unread_or_zero c other + 1
    ∧ ∀ p, p ≠ other → unreadCount c' !! p = unreadCount c !! p.
Proof.
  intros [Hkey _] Hfind Htwo. run_all.
  destruct (blank (body_content b) && negb (bool_decide (is_Some (body_image b))));
    simpl; [done|].
  destruct (faults ConversationFindById); simpl; [done|].
  rewrite Hfind. simpl.
  case_bool_decide as Hin; simpl; [|done].
  destruct (faults MessageCreate); simpl; [done|].
  destruct (bump_two_party userId c Htwo Hin) as (other & Hne & Hother & Hbump).
  rewrite Hother. simpl.
  destruct (faults ConversationSave); simpl; [done|].
  destruct (faults MessagePopulate); simpl; [done|].
  intros _. eexists. exists other. eexists. split; [done|]. simpl.
  split; [apply new_id_fresh|].
  split; [apply lookup_insert_eq|].
  split; [done|]. split; [done|]. split; [done|].
  split; [apply find_some in Hother as [Ho _]; by apply list_elem_of_In|].
  split; [done|]. split; [done|]. split; [done|]. split; [done|]. split; [done|].
  rewrite (Hkey _ _ Hfind), lookup_insert_eq. split; [done|]. simpl.
  split; [done|]. split; [done|]. rewrite Hbump. split.
  - unfold unread_or_zero at 1. simpl. by rewrite lookup_insert_eq.
  - intros p Hp. by rewrite lookup_insert_ne.
Qed.

Lemma addMessage_delivers_witness :
  let d := mkMessageData "b" (Some "hi") "c" None in
  let w := sendMessage no_faults "a" "s1" 5 d empty_world in
  let b := mkAddMessageBody "c" (Some "  hello  ") None in
  let c := mkConversation "c" ["a"; "b"] (Some 0) {[ "b" := 1 ]} in
  ∃ m other c',
    body (addMessage no_faults "b" 6 b w).2 = success_message m
    ∧ messages w !! _id m = None
    ∧ messages (addMessage no_faults "b" 6 b w).1 !! _id m = Some m
    ∧ sender m = "b" ∧ recipient m = other
    ∧ other ≠ "b" ∧ other ∈ participants c ∧ "b" ∈ participants c
    ∧ conversationId m = body_conversationId b
    ∧ content m = Some (trimmed_or_empty (body_content b))
    ∧ image m = body_image b ∧ read m = false
    ∧ conversations (addMessage no_faults "b" 6 b w).1 !! body_conversationId b = Some c'
    ∧ lastMessage c' = Some (_id m)
    ∧ participants c' = participants c
    ∧ unread_or_zero c' other = unread_or_zero c other + 1
    ∧ ∀ p, p ≠ other → unreadCount c' !! p = unreadCount c !! p.
Proof.
  apply (addMessage_delivers no_faults "b" 6 (mkAddMessageBody "c" (Some "  hello  ") None)
           (mkConversation "c" ["a"; "b"] (Some 0) {[ "b" := 1 ]})
           (sendMessage no_faults "a" "s1" 5 (mkMessageData "b" (Some "hi") "c" None)
              empty_world)).
  - apply sendMessage_well_keyed, well_keyed_empty.
  - vm_compute. reflexivity.
  - reflexivity.
  - vm_compute. reflexivity.
Defined.

(** *** A read receipt that fails *)

(** X24: when a store call of markAsRead rejects, nobody is told: no event
    is emitted, to the reader or to the room, and no conversation changes.
    The messages named are marked as read all the same unless it is the
    update itself that rejected, so the reader's counter then stays above
    the number of their unread messages. *)
Theorem markAsRead_fails_silently (faults : Faults) (userId conversation : string)
    (messageIds : list nat) (w : World) :
  faults MessageUpdateMany || faults ConversationFindById
    || (bool_decide (is_Some (conversations w !! conversation)) && faults ConversationSave)
  = true →
  outbox (markAsRead faults userId conversation messageIds w) = outbox w
  ∧ conversations (markAsRead faults userId conversation messageIds w) = conversations w
  ∧ messages (markAsRead faults userId conversation messageIds w)
    = if faults MessageUpdateMany then messages w
      else (λ m, if bool_decide (_id m ∈ messageIds) then set_read m else m) <$> messages w.
Proof.
  run_all.
  destruct (faults MessageUpdateMany); simpl; [done|].
  destruct (faults ConversationFindById); simpl; [done|].
  destruct (conversations w !! conversation) as [c|]; simpl; [|done].
  by destruct (faults ConversationSave).
Qed.

Lemma markAsRead_fails_silently_witness :
  let d := mkMessageData "b" (Some "hi") "c" None in
  let w := sendMessage no_faults "a" "s1" 5 d empty_world in
  let faults := λ c, bool_decide (c = ConversationSave) in
  outbox (markAsRead faults "b" "c" [0] w) = outbox w
  ∧ conversations (markAsRead faults "b" "c" [0] w) = conversations w
  ∧ messages (markAsRead faults "b" "c" [0] w)
    = if faults MessageUpdateMany then messages w
      else (λ m, if bool_decide (_id m ∈ [0]) then set_read m else m) <$> messages w.
Proof.
  apply (markAsRead_fails_silently (λ c, bool_decide (c = ConversationSave)) "b" "c" [0]
           (sendMessage no_faults "a" "s1" 5 (mkMessageData "b" (Some "hi") "c" None)
              empty_world)).
  vm_compute. reflexivity.
Defined.
